(** * Letterboxd -> Notion sync: a shallow embedding of
      [scripts/sync-letterboxd-to-notion.js] and the properties of its
      title normaliser, star-rating parser, payload builder and main loop. *)

From Stdlib Require Import NArith List QArith Qcanon Lia Permutation.
From stdpp Require Import gmap strings list fin_maps.

Local Open Scope N_scope.

(** ** JavaScript strings

    A JS string is a sequence of UTF-16 code units.  String literals of the
    script that are plain ASCII are written with [lit]. *)

Abbreviation jsstring := (list N).

Definition lit (s : string) : jsstring :=
  map Ascii.N_of_ascii (String.list_ascii_of_string s).

(** ECMAScript [LineTerminator]: LF, CR, LS, PS. *)
Definition is_line_terminator (c : N) : bool :=
  (c =? 10) || (c =? 13) || (c =? 0x2028) || (c =? 0x2029).

(** ECMAScript [WhiteSpace]: TAB, VT, FF, SP, NBSP, ZWNBSP and category Zs. *)
Definition is_white_space (c : N) : bool :=
  (c =? 9) || (c =? 11) || (c =? 12) || (c =? 32) || (c =? 160)
  || (c =? 0x1680) || ((0x2000 <=? c) && (c <=? 0x200A))
  || (c =? 0x202F) || (c =? 0x205F) || (c =? 0x3000) || (c =? 0xFEFF).

(** What [String.prototype.trim] strips and what the regex class [\s]
    matches: white space and line terminators. *)
Definition is_space (c : N) : bool :=
  is_white_space c || is_line_terminator c.

(** The regex class [\d]. *)
Definition is_digit (c : N) : bool := (48 <=? c) && (c <=? 57).

Fixpoint trimStart (s : jsstring) : jsstring :=
  match s with
  | c :: s' => if is_space c then trimStart s' else s
  | [] => []
  end.

Definition trimEnd (s : jsstring) : jsstring := rev (trimStart (rev s)).

(** [s.trim()] *)
Definition trim (s : jsstring) : jsstring := trimEnd (trimStart s).

(** JS truthiness of a string: every string but the empty one. *)
Definition truthy (s : jsstring) : bool :=
  match s with [] => false | _ :: _ => true end.

(** [x || null] for a possibly undefined/null string [x]. *)
Definition or_null (x : option jsstring) : option jsstring :=
  match x with
  | Some s => if truthy s then Some s else None
  | None => None
  end.

Fixpoint starts_with (p s : jsstring) : bool :=
  match p, s with
  | [], _ => true
  | a :: p', b :: s' => (a =? b) && starts_with p' s'
  | _ :: _, [] => false
  end.

(** [contains p s]: [p] occurs in [s] as a substring ([s.includes(p)]). *)
Fixpoint contains (p s : jsstring) : bool :=
  starts_with p s ||
  match s with
  | [] => false
  | _ :: s' => contains p s'
  end.

(** [s.split(sep)] for a non-empty separator: the scan goes left to right,
    an occurrence of [sep] closes the current piece and the scan resumes
    after it ([skip] counts the units of the occurrence still to pass). *)
Fixpoint split_from (sep : jsstring) (skip : nat) (cur s : jsstring)
  : list jsstring :=
  match s with
  | [] => [rev cur]
  | c :: s' =>
      match skip with
      | S k => split_from sep k cur s'
      | O =>
          if starts_with sep s
          then rev cur :: split_from sep (Nat.pred (length sep)) [] s'
          else split_from sep 0 (c :: cur) s'
      end
  end.

Definition split (sep s : jsstring) : list jsstring := split_from sep 0 [] s.

(** The separator of the RSS title, [" - "]. *)
Definition SEP : jsstring := lit " - ".

(** ** The regular expression of [left?.match]

    The pattern is: start of input, a greedy group of any number of units
    other than line terminators (the dot), a comma, one [\s], a group of
    four [\d], end of input.  [match_year_tail] is the fixed-width end, from
    the comma on; it returns the year group.  [match_title_year] adds the
    greedy group: a unit that is no line terminator is first given to the
    star, and only when the rest then fails is the end tried at this
    position (backtracking).  The result is the pair of captures
    (m[1], m[2]). *)

Definition match_year_tail (s : jsstring) : option jsstring :=
  match s with
  | [c; w; d1; d2; d3; d4] =>
      if (c =? 44) && is_space w
         && is_digit d1 && is_digit d2 && is_digit d3 && is_digit d4
      then Some [d1; d2; d3; d4]
      else None
  | _ => None
  end.

Fixpoint match_title_year (s : jsstring) : option (jsstring * jsstring) :=
  let here := (fun y => ([], y)) <$> match_year_tail s in
  match s with
  | [] => here
  | c :: s' =>
      if is_line_terminator c then here
      else match match_title_year s' with
           | Some (t, y) => Some (c :: t, y)
           | None => here
           end
  end.

(** The shape the script expects of an RSS title, as in
    "Stand by Me, 1986 - ★★★★": title, comma, year, separator, glyphs. *)
Definition raw_title (t y glyphs : jsstring) : jsstring :=
  t ++ lit ", " ++ y ++ lit " - " ++ glyphs.

(** ** parseRssTitle *)

Record ParsedTitle := {
  title : jsstring;
  year : option jsstring;
  stars : option jsstring
}.

Definition parseRssTitle (rawTitle : option jsstring) : ParsedTitle :=
  (* const s = (rawTitle || "").trim(); *)
  let s := trim (default [] rawTitle) in
  (* const [left, stars] = s.split(" - ").map((x) => x?.trim()); *)
  let parts := map trim (split SEP s) in
  let left := parts !! 0%nat in
  let stars := parts !! 1%nat in
  (* const m = left?.match(...); *)
  let m := left ≫= match_title_year in
  {| title := default s (or_null (match m with
                                  | Some (t, _) => Some t
                                  | None => left
                                  end));
     year := snd <$> m;
     stars := or_null stars |}.

(** ** starsToNumber *)

Definition STAR : jsstring := [0x2605].
Definition HALF : jsstring := [0xBD].

Definition is_high_surrogate (c : N) : bool := (0xD800 <=? c) && (c <=? 0xDBFF).
Definition is_low_surrogate (c : N) : bool := (0xDC00 <=? c) && (c <=? 0xDFFF).

(** The strings a [for (const ch of s)] loop binds [ch] to: the code points
    of [s], a well-formed surrogate pair being one of them. *)
Fixpoint code_points (s : jsstring) : list jsstring :=
  match s with
  | [] => []
  | c :: s' =>
      match s' with
      | d :: s'' =>
          if is_high_surrogate c && is_low_surrogate d
          then [c; d] :: code_points s''
          else [c] :: code_points s'
      | [] => [[c]]
      end
  end.

(** The number [val] of [starsToNumber] is a rational here.  The script adds
    1 and 0.5 to 0 in double precision; these sums are exact (a multiple of
    0.5 far below 2^53), so no rounding is left out. *)

(** 0.5 *)
Definition half : Qc := Q2Qc (1 # 2).

(** The body of the loop: [if (ch === "★") val += 1; if (ch === "½") val += 0.5;] *)
Definition star_step (val : Qc) (ch : jsstring) : Qc :=
  let val := if bool_decide (ch = STAR) then (val + 1)%Qc else val in
  if bool_decide (ch = HALF) then (val + half)%Qc else val.

(** The value of [val] when the loop ends. *)
Definition star_sum (s : jsstring) : Qc :=
  fold_left star_step (code_points s) 0%Qc.

Definition starsToNumber (stars : option jsstring) : option Qc :=
  match or_null stars with
  | None => None                                   (* if (!stars) return null; *)
  | Some s =>
      let val := star_sum s in
      if decide (val = 0%Qc) then None else Some val   (* return val || null; *)
  end.

(** The weight of one code unit in half stars, the half-star total of a
    string, and the number that total stands for. *)
Definition unit_halves (c : N) : nat :=
  if c =? 0x2605 then 2%nat else if c =? 0xBD then 1%nat else 0%nat.

Definition star_halves (s : jsstring) : nat :=
  foldr (fun c k => (unit_halves c + k)%nat) 0%nat s.

Definition halves (k : nat) : Qc := Q2Qc (Z.of_nat k # 2).

(** A string that is empty or starts with a unit [trim] leaves in place. *)
Definition starts_clean (s : jsstring) : bool :=
  match s with
  | [] => true
  | c :: _ => negb (is_space c)
  end.

(** ** The Notion page payload

    A property value of the create call, as the script writes them.
    [PUndefined] is the JS value [undefined] that the object literal of
    [notionCreateMoviePage] holds before its keys are deleted. *)

Record file_ref := { file_name : jsstring; external_url : jsstring }.

Inductive prop_value :=
  | PTitle (content : jsstring)          (* { title: [{ text: { content } }] } *)
  | PRichText (contents : list jsstring) (* { rich_text: [{ text: { content } }, ...] } *)
  | PDate (start : jsstring)             (* { date: { start } } *)
  | PNumber (n : Qc)                     (* { number: n } *)
  | PSelect (name : jsstring)            (* { select: { name } } *)
  | PUrl (url : jsstring)                (* { url } *)
  | PFiles (files : list file_ref)       (* { files: [{ type: "external", name, external: { url } }] } *)
  | PUndefined.

Definition is_undefined (v : prop_value) : bool :=
  match v with PUndefined => true | _ => false end.

(** The properties of a page, by property name. *)
Abbreviation page := (gmap string prop_value).

(** [Object.keys(props).forEach((k) => props[k] === undefined && delete props[k])] *)
Definition remove_undefined (props : page) : page :=
  filter (fun kv : string * prop_value => is_undefined kv.2 = false) props.

(** The [properties] object [notionCreateMoviePage] sends. *)
Definition movie_props (title : jsstring) (director watchedDate : option jsstring)
    (rating : option Qc) (posterUrl : option jsstring)
    (goals status mediaType format letterboxdUrl : jsstring) : page :=
  let props : page := list_to_map [
    ("Name", PTitle title);
    ("Author", match or_null director with
               | Some d => PRichText [d]
               | None => PRichText []
               end);
    ("Date Read/Watched", match or_null watchedDate with
                          | Some d => PDate d
                          | None => PUndefined
                          end);
    ("My Rating", match rating with
                  | Some r => PNumber r
                  | None => PUndefined
                  end);
    ("Goals", PRichText [goals]);
    ("Status", PSelect status);
    ("media type", PSelect mediaType);
    ("Format", PSelect format);
    ("Letterboxd URL", PUrl letterboxdUrl);
    ("Image", match or_null posterUrl with
              | Some u => PFiles [{| file_name := lit "poster"; external_url := u |}]
              | None => PUndefined
              end)
  ] in
  remove_undefined props.

(** ** The outside world

    The script talks to four collaborators: the RSS host, the TMDB API, the
    Notion API and the two parsing libraries (xml2js, node-html-parser).
    What they answer is the environment [Env]; what the script does to them
    is recorded in the [World]: the pages of the Notion database and the
    trace of calls, oldest first. *)

Inductive error :=
  | FetchFailed (status : N) (url : jsstring)  (* thrown by fetchText *)
  | Rejection (reason : jsstring).             (* a rejected promise of a collaborator *)

(** How an awaited promise settles. *)
Inductive outcome (A : Type) :=
  | Fulfilled (a : A)
  | Rejected (e : error).
Arguments Fulfilled {A} a.
Arguments Rejected {A} e.

(** The [Response] of [fetch]: [ok], [status] and how reading the body
    ([res.text()], [res.json()]) settles. *)
Record Response (B : Type) := {
  ok : bool;
  status : N;
  body : outcome B
}.
Arguments ok {B} _.
Arguments status {B} _.
Arguments body {B} _.

(** An item of the feed as xml2js delivers it: every child element is an
    array of strings, absent elements are the empty array here (indexing
    either at 0 gives [undefined]). *)
Record FeedItem := {
  item_title : list jsstring;
  item_link : list jsstring;
  item_watchedDate : list jsstring;      (* "letterboxd:watchedDate" *)
  item_description : list jsstring
}.

Record Channel := { item : option (list FeedItem) }.
Record Rss := { channel : option (list Channel) }.
Record Feed := { rss : option Rss }.

(** A result of TMDB's movie search and a member of a credits crew. *)
Record TmdbHit := { hit_id : option N; poster_path : option jsstring }.
Record CrewMember := { job : option jsstring; name : option jsstring }.
Record SearchJson := { results : option (list TmdbHit) }.
Record CreditsJson := { crew : option (list CrewMember) }.

Record Env := {
  RSS_URL : jsstring;
  TMDB_KEY : option jsstring;
  (** [fetch(RSS_URL)] *)
  rss_response : outcome (Response jsstring);
  (** [xml2js.parseStringPromise] *)
  xml_parse : jsstring -> outcome (option Feed);
  (** node-html-parser: [parse(html).querySelector("img")?.getAttribute("src")] *)
  html_img_src : jsstring -> option jsstring;
  (** [fetch] of the TMDB search URL for a query and an optional year *)
  tmdb_search_response : jsstring -> option jsstring -> outcome (Response SearchJson);
  (** [fetch] of the TMDB credits URL of a movie id *)
  tmdb_credits_response : N -> outcome (Response CreditsJson);
  (** whether the Notion client rejects a query / a create call *)
  notion_query_rejects : jsstring -> option error;
  notion_create_rejects : page -> option error
}.

Inductive event :=
  | EFetchRss (url : jsstring)
  | ETmdbSearch (query : jsstring) (year : option jsstring)
  | ETmdbCredits (movieId : N)
  | ENotionQuery (letterboxdUrl : jsstring)
  | ENotionCreate (props : page)
  | ELog (msg : jsstring)
  | EError (e : error)                   (* console.error(e) *)
  | ESleep (ms : N).

Record World := {
  pages : list page;
  trace : list event
}.

Definition emit (e : event) (w : World) : World :=
  {| pages := pages w; trace := trace w ++ [e] |}.

(** ** Async functions: state passing with exceptions

    An async function reads and changes the world and either returns or
    throws; a throw keeps what was done before it. *)
Definition Async (A : Type) : Type := World -> outcome A * World.

Definition ret {A} (a : A) : Async A := fun w => (Fulfilled a, w).

Definition throw {A} (e : error) : Async A := fun w => (Rejected e, w).

Definition bind {A B} (m : Async A) (k : A -> Async B) : Async B :=
  fun w =>
    match m w with
    | (Fulfilled a, w') => k a w'
    | (Rejected e, w') => (Rejected e, w')
    end.

Notation "'let!' x ':=' m 'in' k" := (bind m (fun x => k))
  (at level 10, x pattern, m at level 100, k at level 200).

(** [await p] for a promise of the environment: the call is recorded, a
    rejection is thrown. *)
Definition await {A} (e : event) (p : outcome A) : Async A :=
  fun w => (p, emit e w).

(** [await p] for a promise that touches nothing outside (reading a body). *)
Definition settle {A} (p : outcome A) : Async A := fun w => (p, w).

Fixpoint for_of {A} (l : list A) (body : A -> Async unit) : Async unit :=
  match l with
  | [] => ret tt
  | x :: l' => let! _ := body x in for_of l' body
  end.

(** Whether a page's "Letterboxd URL" property is the URL [u]. *)
Definition has_url (u : jsstring) (p : page) : bool :=
  match p !! "Letterboxd URL" with
  | Some (PUrl v) => bool_decide (v = u)
  | _ => false
  end.

Section Script.
Context (env : Env).

(** [notion.databases.query] with the filter
    [{ property: "Letterboxd URL", url: { equals } }] and [page_size: 1]:
    the [results] of the response.  The database answers from the pages
    it holds when the call is made, those the run created included. *)
Definition notion_databases_query (letterboxdUrl : jsstring) : Async (list page) :=
  fun w =>
    match notion_query_rejects env letterboxdUrl with
    | Some e => (Rejected e, emit (ENotionQuery letterboxdUrl) w)
    | None => (Fulfilled (take 1 (List.filter (has_url letterboxdUrl) (pages w))),
               emit (ENotionQuery letterboxdUrl) w)
    end.

(** [notion.pages.create]: the page is in the database when the call returns. *)
Definition notion_pages_create (props : page) : Async unit :=
  fun w =>
    match notion_create_rejects env props with
    | Some e => (Rejected e, emit (ENotionCreate props) w)
    | None => (Fulfilled tt,
               {| pages := pages w ++ [props];
                  trace := trace w ++ [ENotionCreate props] |})
    end.

Definition console_log (msg : jsstring) : Async unit :=
  fun w => (Fulfilled tt, emit (ELog msg) w).

Definition sleep (ms : N) : Async unit :=
  fun w => (Fulfilled tt, emit (ESleep ms) w).

Definition fetchText (url : jsstring) (response : outcome (Response jsstring))
  : Async jsstring :=
  let! res := await (EFetchRss url) response in
  if negb (ok res) then throw (FetchFailed (status res) url)
  else settle (body res).

Definition posterFromRssDescription (html : option jsstring) : option jsstring :=
  (* const root = parse(html || ""); const img = root.querySelector("img"); *)
  (* return img?.getAttribute("src") || null; *)
  or_null (html_img_src env (default [] (or_null html))).

Definition notionFindByLetterboxdUrl (letterboxdUrl : jsstring) : Async (option page) :=
  let! results := notion_databases_query letterboxdUrl in
  ret (head results).                           (* resp.results?.[0] || null *)

Definition tmdbSearchMovie (title : jsstring) (year : option jsstring)
  : Async (option TmdbHit) :=
  (* if (year) url.searchParams.set("year", year); *)
  let year_param := or_null year in
  let! res := await (ETmdbSearch title year_param)
                    (tmdb_search_response env title year_param) in
  if negb (ok res) then ret None
  else
    let! json := settle (body res) in
    ret (results json ≫= head).                 (* json?.results?.[0] || null *)

Definition is_director (c : CrewMember) : bool :=
  bool_decide (job c = Some (lit "Director")).

Definition tmdbGetDirector (movieId : N) : Async (option jsstring) :=
  let! res := await (ETmdbCredits movieId) (tmdb_credits_response env movieId) in
  if negb (ok res) then ret None
  else
    let! json := settle (body res) in
    let crew := default [] (crew json) in       (* json?.crew || [] *)
    let director := List.find is_director crew in
    ret (or_null (director ≫= name)).           (* director?.name || null *)

Definition tmdbPosterUrl (posterPath : option jsstring) : option jsstring :=
  match or_null posterPath with
  | None => None
  | Some p => Some (lit "https://image.tmdb.org/t/p/w500" ++ p)
  end.

Definition notionCreateMoviePage (title : jsstring)
    (director watchedDate : option jsstring) (rating : option Qc)
    (posterUrl : option jsstring)
    (goals status mediaType format letterboxdUrl : jsstring) : Async unit :=
  notion_pages_create
    (movie_props title director watchedDate rating posterUrl
                 goals status mediaType format letterboxdUrl).

(** JS truthiness of a number: every number but 0 (and NaN). *)
Definition truthy_id (i : option N) : option N :=
  match i with
  | Some n => if n =? 0 then None else Some n
  | None => None
  end.

(** The TMDB part of the loop body: the director and the poster it leaves. *)
Definition enrich (title : jsstring) (year posterUrl : option jsstring)
  : Async (option jsstring * option jsstring) :=
  match or_null (TMDB_KEY env) with
  | None => ret (None, posterUrl)
  | Some _ =>
      let! tmdbHit := tmdbSearchMovie title year in
      match tmdbHit with
      | None => ret (None, posterUrl)
      | Some hit =>
          match truthy_id (hit_id hit) with
          | None => ret (None, posterUrl)
          | Some movieId =>
              let! director := tmdbGetDirector movieId in
              let tmdbPoster := tmdbPosterUrl (poster_path hit) in
              ret (director,
                   match tmdbPoster with
                   | Some u => Some u       (* if (tmdbPoster) posterUrl = tmdbPoster; *)
                   | None => posterUrl
                   end)
          end
      end
  end.

(** The four values the loop body reads off an item. *)
Definition rawTitle_of (it : FeedItem) : jsstring :=
  default [] (or_null (head (item_title it))).       (* item?.title?.[0] || "" *)
Definition link_of (it : FeedItem) : jsstring :=
  default [] (or_null (head (item_link it))).        (* item?.link?.[0] || "" *)
Definition watchedDate_of (it : FeedItem) : option jsstring :=
  or_null (head (item_watchedDate it)).              (* ...?.[0] || null *)
Definition descriptionHtml_of (it : FeedItem) : jsstring :=
  default [] (or_null (head (item_description it))). (* item?.description?.[0] || "" *)

(** The body of the [for (const item of items)] loop; [continue] is a
    return from it. *)
Definition process_item (it : FeedItem) : Async unit :=
  let rawTitle := rawTitle_of it in
  let link := link_of it in
  let watchedDate := watchedDate_of it in
  let descriptionHtml := descriptionHtml_of it in
  if negb (truthy link) then ret tt                         (* if (!link) continue; *)
  else
    let! found := notionFindByLetterboxdUrl link in
    match found with
    | Some _ => ret tt                                      (* if (exists) continue; *)
    | None =>
        let parsed := parseRssTitle (Some rawTitle) in
        let rating := starsToNumber (stars parsed) in
        let posterUrl := posterFromRssDescription (Some descriptionHtml) in
        let! (director, posterUrl) := enrich (title parsed) (year parsed) posterUrl in
        let! _ := console_log (lit "Adding: " ++ title parsed ++ lit " ("
                               ++ default (lit "no date") watchedDate ++ lit ")") in
        let! _ := notionCreateMoviePage (title parsed) director watchedDate rating
                    posterUrl (lit "certified cinephile") (lit "watched")
                    (lit "movie") (lit "movie") link in
        sleep 350
    end.

(** [feed?.rss?.channel?.[0]?.item || []] *)
Definition feed_items (feed : option Feed) : list FeedItem :=
  let rss := feed ≫= rss in
  let channel := rss ≫= channel in
  let first := channel ≫= head in
  default [] (first ≫= item).

Definition main : Async unit :=
  let! xml := fetchText (RSS_URL env) (rss_response env) in
  let! feed := settle (xml_parse env xml) in
  let items := feed_items feed in
  let! _ := for_of items process_item in
  console_log (lit "Sync complete.").

(** [main().catch((e) => { console.error(e); process.exit(1); })]: the exit
    code of the process and the world it leaves. *)
Definition run (w : World) : N * World :=
  match main w with
  | (Fulfilled _, w') => (0, w')
  | (Rejected e, w') => (1, emit (EError e) w')
  end.

End Script.

(** The properties the loop body sends for an item, given the director and
    the poster the TMDB part left. *)
Definition item_props (it : FeedItem) (director posterUrl : option jsstring) : page :=
  movie_props (title (parseRssTitle (Some (rawTitle_of it)))) director
    (watchedDate_of it)
    (starsToNumber (stars (parseRssTitle (Some (rawTitle_of it)))))
    posterUrl (lit "certified cinephile") (lit "watched") (lit "movie") (lit "movie")
    (link_of it).

(** The line the loop body logs for an item. *)
Definition item_log (it : FeedItem) : jsstring :=
  lit "Adding: " ++ title (parseRssTitle (Some (rawTitle_of it))) ++ lit " ("
  ++ default (lit "no date") (watchedDate_of it) ++ lit ")".

(** The TMDB search the loop body makes for an item: its record in the
    trace and what the environment answers. *)
Definition search_event (it : FeedItem) : event :=
  ETmdbSearch (title (parseRssTitle (Some (rawTitle_of it))))
              (or_null (year (parseRssTitle (Some (rawTitle_of it))))).

Definition search_response (env : Env) (it : FeedItem) : outcome (Response SearchJson) :=
  tmdb_search_response env (title (parseRssTitle (Some (rawTitle_of it))))
                       (or_null (year (parseRssTitle (Some (rawTitle_of it))))).

(** The poster the loop body reads off the item's description. *)
Definition rss_poster (env : Env) (it : FeedItem) : option jsstring :=
  posterFromRssDescription env (Some (descriptionHtml_of it)).

(** The poster after a TMDB hit: [if (tmdbPoster) posterUrl = tmdbPoster]. *)
Definition hit_poster (env : Env) (it : FeedItem) (hit : TmdbHit) : option jsstring :=
  match tmdbPosterUrl (poster_path hit) with
  | Some u => Some u
  | None => rss_poster env it
  end.

(** The [files] value of a poster. *)
Definition poster_files (u : jsstring) : prop_value :=
  PFiles [{| file_name := lit "poster"; external_url := u |}].

(** No two pages of the list have the same "Letterboxd URL": the invariant
    of the destination store. *)
Definition unique_links (ps : list page) : Prop :=
  forall u, (length (List.filter (has_url u) ps) <= 1)%nat.

(** No page of the list has the URL [u] as its "Letterboxd URL". *)
Definition url_free (u : jsstring) (ps : list page) : Prop :=
  Forall (fun p : page => p !! "Letterboxd URL" <> Some (PUrl u)) ps.

(** ** A sample feed and sample environments *)

Definition FOUR_STARS : jsstring := [0x2605; 0x2605; 0x2605; 0x2605].

Definition sample_item : FeedItem := {|
  item_title := [lit "Stand by Me, 1986 - " ++ FOUR_STARS];
  item_link := [lit "https://example.com/film/x"];
  item_watchedDate := [lit "2024-05-01"];
  item_description := [lit "<p><img src=https://a.ltrbxd.com/sbm.jpg/></p>"]
|}.

Definition sample_feed : Feed :=
  {| rss := Some {| channel := Some [{| item := Some [sample_item] |}] |} |}.

(** An environment that serves the sample feed, finds the image of the
    description, lets Notion accept every call and answers TMDB as given. *)
Definition sample_env (key : option jsstring)
    (search : outcome (Response SearchJson))
    (credits : outcome (Response CreditsJson)) : Env := {|
  RSS_URL := lit "https://letterboxd.com/someone/rss/";
  TMDB_KEY := key;
  rss_response := Fulfilled {| ok := true; status := 200; body := Fulfilled (lit "<rss/>") |};
  xml_parse := fun _ => Fulfilled (Some sample_feed);
  html_img_src := fun _ => Some (lit "https://a.ltrbxd.com/sbm.jpg");
  tmdb_search_response := fun _ _ => search;
  tmdb_credits_response := fun _ => credits;
  notion_query_rejects := fun _ => None;
  notion_create_rejects := fun _ => None
|}.

Definition empty_world : World := {| pages := []; trace := [] |}.

(** A Notion database that already holds a page for the sample item. *)
Definition synced_world : World :=
  {| pages := [item_props sample_item None None]; trace := [] |}.

(** TMDB answers with status 503; TMDB is unreachable; TMDB sends a body
    that is no JSON; TMDB finds the film and then fails on the credits. *)
Definition unavailable {B} : outcome (Response B) :=
  Fulfilled {| ok := false; status := 503; body := Rejected (Rejection (lit "no body")) |}.

Definition unreachable {B} : outcome (Response B) :=
  Rejected (Rejection (lit "fetch failed")).

Definition garbled {B} : outcome (Response B) :=
  Fulfilled {| ok := true; status := 200;
               body := Rejected (Rejection (lit "Unexpected token < in JSON")) |}.

Definition one_hit : outcome (Response SearchJson) :=
  Fulfilled {| ok := true; status := 200;
               body := Fulfilled {| results := Some [{| hit_id := Some 235;
                                                         poster_path := Some (lit "/sbm.jpg") |}] |} |}.

(** The create calls of a trace, oldest first. *)
Definition creates (t : list event) : list page :=
  omap (fun e => match e with ENotionCreate p => Some p | _ => None end) t.

(** ** Readings of a trace and of a payload *)

(** The links the run asked the database about, oldest first. *)
Definition queries (t : list event) : list jsstring :=
  omap (fun e => match e with ENotionQuery u => Some u | _ => None end) t.

(** The calls to TMDB. *)
Definition tmdb_calls (t : list event) : list event :=
  List.filter (fun e => match e with
                        | ETmdbSearch _ _ | ETmdbCredits _ => true
                        | _ => false
                        end) t.

(** The pauses. *)
Definition sleeps (t : list event) : list N :=
  omap (fun e => match e with ESleep ms => Some ms | _ => None end) t.

(** The two glyphs [starsToNumber] counts. *)
Definition is_glyph (c : N) : bool := (c =? 0x2605) || (c =? 0xBD).

(** The feed the run gets to read: the fetch settles with an ok response
    whose body is read and parsed. *)
Definition feed_loaded (env : Env) (feed : option Feed) : Prop :=
  exists res xml,
    rss_response env = Fulfilled res /\ ok res = true
    /\ body res = Fulfilled xml /\ xml_parse env xml = Fulfilled feed.

(** The ways the feed is not read, with the error thrown. *)
Definition feed_fails (env : Env) (e : error) : Prop :=
  rss_response env = Rejected e
  \/ (exists res, rss_response env = Fulfilled res /\ ok res = false
                  /\ e = FetchFailed (status res) (RSS_URL env))
  \/ (exists res, rss_response env = Fulfilled res /\ ok res = true
                  /\ body res = Rejected e)
  \/ (exists res xml, rss_response env = Fulfilled res /\ ok res = true
                      /\ body res = Fulfilled xml /\ xml_parse env xml = Rejected e).

(** The ten property names of the object literal of [notionCreateMoviePage]. *)
Definition MOVIE_KEYS : list string :=
  ["Name"; "Author"; "Date Read/Watched"; "My Rating"; "Goals"; "Status";
   "media type"; "Format"; "Letterboxd URL"; "Image"].

(** What every payload of the loop body has: the four constant fields, a
    name, an author and a link that is not empty. *)
Definition movie_page (p : page) : Prop :=
  p !! "Goals" = Some (PRichText [lit "certified cinephile"])
  /\ p !! "Status" = Some (PSelect (lit "watched"))
  /\ p !! "media type" = Some (PSelect (lit "movie"))
  /\ p !! "Format" = Some (PSelect (lit "movie"))
  /\ (exists t, p !! "Name" = Some (PTitle t))
  /\ (exists a, p !! "Author" = Some (PRichText a))
  /\ (exists u, u <> [] /\ p !! "Letterboxd URL" = Some (PUrl u)).

(** An environment whose feed host answers as given; the rest as in
    [sample_env] without a TMDB key. *)
Definition feed_env (rss : outcome (Response jsstring))
    (parse : jsstring -> outcome (option Feed)) : Env := {|
  RSS_URL := lit "https://letterboxd.com/someone/rss/";
  TMDB_KEY := None;
  rss_response := rss;
  xml_parse := parse;
  html_img_src := fun _ => None;
  tmdb_search_response := fun _ _ => unreachable;
  tmdb_credits_response := fun _ => unreachable;
  notion_query_rejects := fun _ => None;
  notion_create_rejects := fun _ => None
|}.

(** A credits answer with a producer and two directors. *)
Definition sample_credits : outcome (Response CreditsJson) :=
  Fulfilled {| ok := true; status := 200;
               body := Fulfilled {| crew := Some [
                 {| job := Some (lit "Producer"); name := Some (lit "Andrew Scheinman") |};
                 {| job := Some (lit "Director"); name := Some (lit "Rob Reiner") |};
                 {| job := Some (lit "Director"); name := Some (lit "Someone Else") |}] |} |}.

(** TMDB answers the search with a result that has a poster and no id. *)
Definition hit_without_id : outcome (Response SearchJson) :=
  Fulfilled {| ok := true; status := 200;
               body := Fulfilled {| results := Some [{| hit_id := None;
                                                         poster_path := Some (lit "/sbm.jpg") |}] |} |}.

(** TMDB with a key, a hit and its credits. *)
Definition keyed_env : Env := sample_env (Some (lit "key")) one_hit sample_credits.

(** The ways a TMDB call of the loop body settles as a rejection [e] for an
    item: the search request is rejected (the network is down), or its body
    is no JSON; or the search gives a hit with an id and the credits request
    is rejected, or its body is no JSON. *)
Definition enrichment_rejects (env : Env) (it : FeedItem) (e : error) : Prop :=
  search_response env it = Rejected e
  \/ (exists res, search_response env it = Fulfilled res /\ ok res = true
                  /\ body res = Rejected e)
  \/ (exists res json hit movieId,
        search_response env it = Fulfilled res /\ ok res = true
        /\ body res = Fulfilled json /\ results json ≫= head = Some hit
        /\ truthy_id (hit_id hit) = Some movieId
        /\ (tmdb_credits_response env movieId = Rejected e
            \/ exists cres, tmdb_credits_response env movieId = Fulfilled cres
                            /\ ok cres = true /\ body cres = Rejected e)).

(** ** Proof steps used more than once *)

(** Decide the comparisons of a goal about a code unit whose range is known. *)
Ltac eqb_cases :=
  repeat match goal with
         | |- context [N.eqb ?a ?b] => destruct (N.eqb_spec a b); [lia|]
         | |- context [N.leb ?a ?b] => destruct (N.leb_spec a b); [try lia|try lia]
         end.

(** Membership of a name in a list of names, and its failure. *)
Ltac in_list :=
  solve [repeat first [apply list_elem_of_here | apply list_elem_of_further]].

Ltac not_in_list H :=
  rewrite ?elem_of_cons, elem_of_nil in H; intuition congruence.

(** Look a property up in the object [notionCreateMoviePage] builds. *)
Ltac props_lookup :=
  unfold movie_props, remove_undefined; cbv zeta;
  rewrite map_lookup_filter; unfold list_to_map; cbn [foldr fst snd];
  simplify_map_eq.

(** * Properties *)

#[local] Arguments N.eqb !n !m.
#[local] Arguments N.leb !x !y.

(** ** Strings *)

Lemma trimStart_clean s : starts_clean (trimStart s) = true.
Proof.
  induction s as [|c s IH]; simpl; [done|].
  destruct (is_space c) eqn:Hc; [done|]. simpl. by rewrite Hc.
Qed.

Lemma trimStart_id s : starts_clean s = true -> trimStart s = s.
Proof.
  destruct s as [|c s]; simpl; [done|].
  by destruct (is_space c).
Qed.

Lemma trimStart_app x y :
  starts_clean y = true -> trimStart (x ++ y) = trimStart x ++ y.
Proof.
  intros Hy. induction x as [|c x IH]; simpl.
  - by apply trimStart_id.
  - by destruct (is_space c).
Qed.

Lemma trimEnd_app x y :
  starts_clean (rev x) = true -> trimEnd (x ++ y) = x ++ trimEnd y.
Proof.
  intros Hx. unfold trimEnd.
  rewrite rev_app_distr, trimStart_app by done.
  by rewrite rev_app_distr, rev_involutive.
Qed.

Lemma trimStart_app_nonempty x y :
  trimStart x <> [] -> trimStart (x ++ y) = trimStart x ++ y.
Proof.
  induction x as [|c x IH]; simpl; [done|].
  by destruct (is_space c).
Qed.

(** Trimming the end stays within a part that is not all white space. *)
Lemma trimEnd_app_nonempty x y :
  trimEnd y <> [] -> trimEnd (x ++ y) = x ++ trimEnd y.
Proof.
  unfold trimEnd. intros Hy.
  rewrite rev_app_distr, trimStart_app_nonempty.
  - by rewrite rev_app_distr, rev_involutive.
  - intros E. by rewrite E in Hy.
Qed.

Lemma trimEnd_id s : starts_clean (rev s) = true -> trimEnd s = s.
Proof.
  intros Hs. unfold trimEnd. by rewrite trimStart_id, rev_involutive.
Qed.

Lemma trim_id s :
  starts_clean s = true -> starts_clean (rev s) = true -> trim s = s.
Proof.
  intros H1 H2. unfold trim. by rewrite trimStart_id, trimEnd_id.
Qed.

Lemma trimEnd_cons c s :
  is_space c = false -> trimEnd (c :: s) = c :: trimEnd s.
Proof.
  intros Hc. apply (trimEnd_app [c] s). simpl. by rewrite Hc.
Qed.

(** A trimmed string does not start with white space. *)
Lemma trim_clean s : starts_clean (trim s) = true.
Proof.
  unfold trim. pose proof (trimStart_clean s) as H.
  destruct (trimStart s) as [|c u]; [done|].
  simpl in H. apply negb_true_iff in H.
  rewrite trimEnd_cons by done. simpl. by rewrite H.
Qed.

Lemma starts_with_app p s : starts_with p (p ++ s) = true.
Proof.
  induction p as [|a p IH]; simpl; [done|].
  by rewrite N.eqb_refl, IH.
Qed.

Lemma starts_with_app_l p x y :
  (length p <= length x)%nat -> starts_with p (x ++ y) = starts_with p x.
Proof.
  revert x. induction p as [|a p IH]; intros [|b x] Hlen; simpl in *; try done; try lia.
  rewrite IH; [done|lia].
Qed.

Lemma contains_cons_false p c s :
  contains p (c :: s) = false ->
  starts_with p (c :: s) = false /\ contains p s = false.
Proof.
  cbn [contains]. intros H. by apply orb_false_elim in H.
Qed.

Lemma split_from_skip sep p cur s :
  split_from sep (length p) cur (p ++ s) = split_from sep 0 cur s.
Proof. induction p as [|a p IH]; simpl; [done|]. apply IH. Qed.

Lemma removelast_length (l : jsstring) :
  length (removelast l) = Nat.pred (length l).
Proof.
  induction l as [|a l IH]; [done|].
  destruct l as [|b l]; [done|].
  cbn [removelast length] in *. by rewrite IH.
Qed.

(** A string without the separator is one piece. *)
Lemma split_from_none sep cur s :
  sep <> [] -> contains sep s = false -> split_from sep 0 cur s = [rev cur ++ s].
Proof.
  intros Hsep. revert cur. induction s as [|c s IH]; intros cur Hs.
  - simpl. by rewrite app_nil_r.
  - apply contains_cons_false in Hs as [H1 H2].
    cbn [split_from]. rewrite H1, IH by done.
    simpl. by rewrite <- app_assoc.
Qed.

(** The first piece ends where the separator first occurs: no occurrence
    starts inside [a], so none lies in [a] followed by the separator less
    its last unit. *)
Lemma split_from_first sep cur a r :
  sep <> [] ->
  contains sep (a ++ removelast sep) = false ->
  split_from sep 0 cur (a ++ sep ++ r) = (rev cur ++ a) :: split_from sep 0 [] r.
Proof.
  intros Hsep. revert cur. induction a as [|c a IH]; intros cur Ha.
  - destruct sep as [|x sep]; [done|].
    cbn [app split_from]. change (x :: sep ++ r) with ((x :: sep) ++ r).
    rewrite starts_with_app. cbn [length Nat.pred].
    by rewrite split_from_skip, app_nil_r.
  - rewrite <- app_comm_cons in Ha.
    apply contains_cons_false in Ha as [H1 H2].
    assert (starts_with sep (c :: a ++ sep ++ r) = false) as H3.
    { rewrite (app_removelast_last 0 Hsep) at 2.
      rewrite <- !app_assoc, app_assoc, app_comm_cons.
      rewrite starts_with_app_l; [done|].
      destruct sep as [|x sep]; [done|].
      cbn [length]. rewrite length_app, removelast_length. simpl. lia. }
    cbn [app split_from]. rewrite H3, IH by done.
    simpl. by rewrite <- app_assoc.
Qed.

(** [s.split(" - ")] for a string with one separator. *)
Lemma split_one a b :
  contains SEP (a ++ removelast SEP) = false ->
  contains SEP b = false ->
  split SEP (a ++ SEP ++ b) = [a; b].
Proof.
  intros Ha Hb. unfold split.
  rewrite split_from_first by done.
  by rewrite split_from_none.
Qed.

(** [s.split(" - ")] begins with the two pieces the first two separators
    cut off. *)
Lemma split_two a b c :
  contains SEP (a ++ removelast SEP) = false ->
  contains SEP (b ++ removelast SEP) = false ->
  split SEP (a ++ SEP ++ b ++ SEP ++ c) = a :: b :: split SEP c.
Proof.
  intros Ha Hb. unfold split.
  by rewrite !split_from_first.
Qed.

(** ** The title pattern *)

Lemma match_year_tail_length s y : match_year_tail s = Some y -> length s = 6%nat.
Proof.
  destruct s as [|c [|w [|d1 [|d2 [|d3 [|d4 [|e s]]]]]]]; simpl; try done.
Qed.

Lemma match_title_year_short s : (length s < 6)%nat -> match_title_year s = None.
Proof.
  induction s as [|c s IH]; intros Hlen; [done|].
  assert (match_year_tail (c :: s) = None) as Hhere.
  { destruct (match_year_tail (c :: s)) eqn:E; [|done].
    apply match_year_tail_length in E. lia. }
  cbn [match_title_year]. rewrite Hhere.
  destruct (is_line_terminator c); [done|].
  rewrite IH; [done|]. simpl in Hlen. lia.
Qed.

Lemma match_title_year_cons c s :
  match_title_year (c :: s) =
  if is_line_terminator c then (fun y => ([], y)) <$> match_year_tail (c :: s)
  else match match_title_year s with
       | Some (t, y) => Some (c :: t, y)
       | None => (fun y => ([], y)) <$> match_year_tail (c :: s)
       end.
Proof. done. Qed.

(** On "t, yyyy" with no line terminator in t the pattern matches, and the
    groups are t and yyyy. *)
Lemma match_title_year_ok t w y :
  existsb is_line_terminator t = false ->
  is_space w = true ->
  length y = 4%nat -> forallb is_digit y = true ->
  match_title_year (t ++ 44 :: w :: y) = Some (t, y).
Proof.
  intros Ht Hw Hlen Hy.
  induction t as [|c t IH].
  - cbn [app]. rewrite match_title_year_cons.
    rewrite match_title_year_short by (simpl; lia).
    destruct y as [|d1 [|d2 [|d3 [|d4 [|e y]]]]]; try done.
    cbn [forallb] in Hy.
    repeat (apply andb_prop in Hy as [? Hy]).
    cbn [match_year_tail]. rewrite Hw. simpl.
    by repeat match goal with H : is_digit _ = true |- _ => rewrite H; clear H end.
  - cbn [existsb] in Ht. apply orb_false_elim in Ht as [Hc Ht].
    cbn [app]. rewrite match_title_year_cons, Hc, IH by done. done.
Qed.

Lemma digit_bounds d : is_digit d = true -> 48 <= d <= 57.
Proof.
  unfold is_digit. intros H. apply andb_prop in H as [H1 H2].
  apply N.leb_le in H1, H2. lia.
Qed.

Lemma digit_not_space d : is_digit d = true -> is_space d = false.
Proof.
  intros H%digit_bounds.
  unfold is_space, is_white_space, is_line_terminator.
  eqb_cases; simpl; try done.
Qed.

(** A separator cannot lie across a comma. *)
Lemma contains_SEP_comma x y :
  contains SEP x = false -> contains SEP y = false ->
  contains SEP (x ++ 44 :: y) = false.
Proof.
  intros Hx Hy. induction x as [|c x IH].
  - cbn [app contains]. by rewrite Hy.
  - apply contains_cons_false in Hx as [H1 H2].
    rewrite <- app_comm_cons. cbn [contains]. rewrite IH, orb_false_r by done.
    destruct x as [|b [|b' x]]; revert H1; vm_compute SEP; simpl.
    + by rewrite andb_false_r.
    + by rewrite !andb_false_r.
    + done.
Qed.

Lemma contains_SEP_year y :
  length y = 4%nat -> forallb is_digit y = true ->
  contains SEP (32 :: y ++ removelast SEP) = false.
Proof.
  intros Hlen Hy.
  destruct y as [|d1 [|d2 [|d3 [|d4 [|e y]]]]]; try done.
  cbn [forallb] in Hy.
  repeat (apply andb_prop in Hy as [?%digit_bounds Hy]).
  vm_compute SEP. simpl. eqb_cases. done.
Qed.

(** ** Star ratings *)

Lemma halves_plus_one k : (halves k + 1)%Qc = halves (k + 2).
Proof.
  apply Qc_is_canon. unfold halves. simpl.
  rewrite !Qred_correct. unfold Qeq. simpl. lia.
Qed.

Lemma halves_plus_half k : (halves k + half)%Qc = halves (k + 1).
Proof.
  apply Qc_is_canon. unfold halves, half. simpl.
  rewrite !Qred_correct. unfold Qeq. simpl. lia.
Qed.

Lemma halves_zero : halves 0 = 0%Qc.
Proof. by apply Qc_is_canon. Qed.

Lemma halves_inj j k : halves j = halves k -> j = k.
Proof.
  unfold halves. intros H%(f_equal this). simpl in H.
  assert (Z.of_nat j # 2 == Z.of_nat k # 2) as E.
  { by rewrite <- (Qred_correct (Z.of_nat j # 2)), H, Qred_correct. }
  unfold Qeq in E. simpl in E. lia.
Qed.

Lemma halves_lt j k : (j < k)%nat -> (halves j < halves k)%Qc.
Proof.
  intros H. unfold Qclt, halves. simpl. rewrite !Qred_correct.
  unfold Qlt. simpl. lia.
Qed.

Lemma halves_le j k : (j <= k)%nat -> (halves j <= halves k)%Qc.
Proof.
  intros H. unfold Qcle, halves. simpl. rewrite !Qred_correct.
  unfold Qle. simpl. lia.
Qed.

(** An even number of half stars is a whole number. *)
Lemma halves_double n : halves (2 * n) = Q2Qc (inject_Z (Z.of_nat n)).
Proof.
  apply Qc_is_canon. unfold halves. simpl.
  rewrite !Qred_correct. unfold Qeq. simpl. lia.
Qed.

Lemma halves_multiple k : halves k = (Q2Qc (inject_Z (Z.of_nat k)) * half)%Qc.
Proof.
  apply Qc_is_canon. unfold halves, half. simpl.
  rewrite !Qred_correct. unfold Qeq. simpl. lia.
Qed.

(** A surrogate is neither glyph. *)
Lemma unit_halves_surrogate c :
  is_high_surrogate c || is_low_surrogate c = true -> unit_halves c = 0%nat.
Proof.
  unfold is_high_surrogate, is_low_surrogate, unit_halves. intros H.
  destruct (N.eqb_spec c 0x2605) as [->|_]; [done|].
  by destruct (N.eqb_spec c 0xBD) as [->|_].
Qed.

Lemma star_step_unit k c :
  star_step (halves k) [c] = halves (k + unit_halves c).
Proof.
  unfold star_step, unit_halves, STAR, HALF.
  destruct (N.eqb_spec c 0x2605) as [->|H1];
    [|destruct (N.eqb_spec c 0xBD) as [->|H2]];
    repeat case_bool_decide; simplify_eq.
  - apply halves_plus_one.
  - apply halves_plus_half.
  - by rewrite Nat.add_0_r.
Qed.

Lemma star_step_pair v c d : star_step v [c; d] = v.
Proof. unfold star_step, STAR, HALF. by repeat case_bool_decide. Qed.

Lemma code_points_cons c d s :
  code_points (c :: d :: s) =
  if is_high_surrogate c && is_low_surrogate d
  then [c; d] :: code_points s
  else [c] :: code_points (d :: s).
Proof. done. Qed.

(** The loop over code points adds up the weights of the code units. *)
Lemma fold_star_step n s k :
  (length s <= n)%nat ->
  fold_left star_step (code_points s) (halves k) = halves (k + star_halves s).
Proof.
  revert s k. induction n as [|n IH]; intros [|c s] k Hlen; simpl in Hlen;
    try lia; try (simpl; by rewrite Nat.add_0_r).
  destruct s as [|d s].
  - cbn [code_points fold_left]. rewrite star_step_unit. simpl.
    by rewrite !Nat.add_0_r.
  - rewrite code_points_cons.
    destruct (is_high_surrogate c && is_low_surrogate d) eqn:Hp.
    + apply andb_prop in Hp as [Hc Hd].
      cbn [fold_left]. rewrite star_step_pair, IH by (simpl in *; lia).
      cbn [star_halves foldr].
      rewrite (unit_halves_surrogate c), (unit_halves_surrogate d); [done| |].
      * by rewrite Hd, orb_true_r.
      * by rewrite Hc.
    + cbn [fold_left]. rewrite star_step_unit, IH by (simpl in *; lia).
      cbn [star_halves foldr]. f_equal. lia.
Qed.

Lemma star_sum_halves s : star_sum s = halves (star_halves s).
Proof.
  unfold star_sum. rewrite <- halves_zero.
  by rewrite (fold_star_step (length s)).
Qed.

Lemma star_halves_bound s : (star_halves s <= 2 * length s)%nat.
Proof.
  induction s as [|c s IH]; simpl; [lia|].
  unfold unit_halves at 1.
  destruct (c =? 0x2605); [lia|]. destruct (c =? 0xBD); lia.
Qed.

Lemma star_halves_perm s1 s2 : Permutation s1 s2 -> star_halves s1 = star_halves s2.
Proof.
  induction 1; simpl; lia.
Qed.

(** What [starsToNumber] returns, in half stars. *)
Lemma starsToNumber_Some s :
  starsToNumber (Some s) =
  if decide (star_halves s = 0%nat) then None else Some (halves (star_halves s)).
Proof.
  unfold starsToNumber. destruct s as [|c s]; [done|].
  cbn [or_null truthy]. cbv zeta. rewrite star_sum_halves.
  rewrite <- halves_zero.
  destruct (decide (star_halves (c :: s) = 0%nat)) as [E|E].
  - rewrite E. by rewrite decide_True.
  - rewrite decide_False; [done|]. by intros ?%halves_inj.
Qed.

(** ** parseRssTitle on a title with separators *)

(** What [parseRssTitle] makes of the first two pieces of the split. *)
Lemma parseRssTitle_pieces raw left rest :
  map trim (split SEP (trim (default [] raw))) = left :: rest ->
  parseRssTitle raw =
  {| title := default (trim (default [] raw))
                (or_null (match match_title_year left with
                          | Some (t, _) => Some t
                          | None => Some left
                          end));
     year := snd <$> match_title_year left;
     stars := or_null (head rest) |}.
Proof.
  intros H. unfold parseRssTitle. rewrite H. cbn [lookup list_lookup mbind option_bind].
  by destruct rest.
Qed.

Lemma lit_comma_space : lit ", " = [44; 32].
Proof. done. Qed.

Lemma trimmed_nonempty c s : is_space c = false -> trim (c :: s) <> [].
Proof.
  intros Hc. unfold trim. cbn [trimStart]. rewrite Hc.
  by rewrite trimEnd_cons.
Qed.

Lemma raw_title_pieces t y g :
  raw_title t y g = (t ++ 44 :: 32 :: y) ++ SEP ++ g.
Proof.
  unfold raw_title. rewrite lit_comma_space. change (lit " - ") with SEP.
  by rewrite <- !app_assoc.
Qed.

Lemma year_clean_end t y :
  length y = 4%nat -> forallb is_digit y = true ->
  starts_clean (rev (t ++ 44 :: 32 :: y)) = true.
Proof.
  intros Hlen Hy.
  destruct y as [|d1 [|d2 [|d3 [|d4 [|e y]]]]]; try done.
  cbn [forallb] in Hy.
  repeat (apply andb_prop in Hy as [? Hy]).
  rewrite rev_app_distr. simpl. by rewrite digit_not_space.
Qed.

(** A title of the expected shape splits and matches as intended when the
    title text is not empty, does not start with white space and holds
    neither a separator nor a line terminator. *)
Lemma parseRssTitle_raw_title t y g :
  t <> [] -> starts_clean t = true ->
  existsb is_line_terminator t = false ->
  contains SEP t = false ->
  length y = 4%nat -> forallb is_digit y = true ->
  g <> [] -> trim g = g -> contains SEP g = false ->
  parseRssTitle (Some (raw_title t y g))
  = {| title := t; year := Some y; stars := Some g |}.
Proof.
  intros Ht Hclean Hlt Hsep Hlen Hy Hg Hgtrim Hgsep.
  assert (trim (t ++ 44 :: 32 :: y) = t ++ 44 :: 32 :: y) as Hleft.
  { apply trim_id; [by destruct t|by apply year_clean_end]. }
  assert (trim (raw_title t y g) = raw_title t y g) as Hraw.
  { pose proof (trim_clean g) as Hc. rewrite Hgtrim in Hc.
    unfold trim in Hgtrim. rewrite trimStart_id in Hgtrim by done.
    rewrite raw_title_pieces. unfold trim.
    rewrite trimStart_id by (by destruct t).
    rewrite (app_assoc _ SEP g), trimEnd_app_nonempty; by rewrite Hgtrim. }
  erewrite parseRssTitle_pieces.
  2:{ cbn [default from_option id].
      rewrite Hraw, raw_title_pieces, split_one; [|..|done].
      - cbn [map]. by rewrite Hleft, Hgtrim.
      - rewrite <- app_assoc. apply contains_SEP_comma; [done|].
        by apply contains_SEP_year. }
  rewrite match_title_year_ok by done.
  destruct t; [done|]. by destruct g.
Qed.

(** ** The normaliser on well-formed and on awkward titles *)

(** C2, as amended.  For a title text T that is not empty, does not start
    with white space and holds neither the separator " - " nor a line
    terminator, and a year of four digits, normalising "T, YYYY - ★★★½"
    gives title T, year YYYY and rating 3.5. *)
Theorem normalize_three_and_a_half (T Y : jsstring) :
  T <> [] -> starts_clean T = true ->
  existsb is_line_terminator T = false ->
  contains SEP T = false ->
  length Y = 4%nat -> forallb is_digit Y = true ->
  title (parseRssTitle (Some (raw_title T Y [0x2605; 0x2605; 0x2605; 0xBD]))) = T
  /\ year (parseRssTitle (Some (raw_title T Y [0x2605; 0x2605; 0x2605; 0xBD]))) = Some Y
  /\ starsToNumber
       (stars (parseRssTitle (Some (raw_title T Y [0x2605; 0x2605; 0x2605; 0xBD]))))
     = Some (Q2Qc (7 # 2)).
Proof.
  intros HT Hclean Hlt Hsep Hlen HY.
  rewrite parseRssTitle_raw_title by done.
  cbn [title year stars]. split; [done|split; [done|]].
  by rewrite starsToNumber_Some.
Qed.

Lemma normalize_three_and_a_half_witness :
  title (parseRssTitle (Some (raw_title (lit "Stand by Me") (lit "1986")
                                        [0x2605; 0x2605; 0x2605; 0xBD])))
  = lit "Stand by Me"
  /\ year (parseRssTitle (Some (raw_title (lit "Stand by Me") (lit "1986")
                                          [0x2605; 0x2605; 0x2605; 0xBD])))
     = Some (lit "1986")
  /\ starsToNumber
       (stars (parseRssTitle (Some (raw_title (lit "Stand by Me") (lit "1986")
                                              [0x2605; 0x2605; 0x2605; 0xBD]))))
     = Some (Q2Qc (7 # 2)).
Proof.
  apply (normalize_three_and_a_half (lit "Stand by Me") (lit "1986"));
    [discriminate | reflexivity | reflexivity | reflexivity | reflexivity | reflexivity].
Defined.

(** C2 as stated fails for a title text that holds the separator: the
    split cuts inside it, the year is lost and the year part is read as
    the glyphs. *)
Lemma normalize_title_with_separator :
  parseRssTitle (Some (raw_title (lit "Mission: Impossible - Fallout") (lit "2018")
                                 [0x2605; 0x2605; 0x2605; 0xBD]))
  = {| title := lit "Mission: Impossible";
       year := None;
       stars := Some (lit "Fallout, 2018") |}
  /\ starsToNumber (Some (lit "Fallout, 2018")) = None.
Proof. split; reflexivity. Qed.

(** C10, as amended.  When the trimmed raw title is a, separator, b,
    separator, c, with no separator starting inside a or inside b, the year
    is read from a alone and the glyphs are b trimmed (null when empty): c
    reaches neither.  The title is the text before the year in a, or a
    itself when a does not end in a year; only when that text is empty is
    the title the whole trimmed raw title, c included. *)
Theorem parseRssTitle_two_separators (raw : option jsstring) (a b c : jsstring) :
  trim (default [] raw) = a ++ SEP ++ b ++ SEP ++ c ->
  contains SEP (a ++ lit " -") = false ->
  contains SEP (b ++ lit " -") = false ->
  year (parseRssTitle raw) = snd <$> match_title_year (trim a)
  /\ stars (parseRssTitle raw) = or_null (Some (trim b))
  /\ title (parseRssTitle raw) =
     match match_title_year (trim a) with
     | Some ([], _) => trim (default [] raw)
     | Some (t, _) => t
     | None => trim a
     end.
Proof.
  intros H Ha Hb.
  assert (trim a <> []) as Hne.
  { pose proof (trim_clean (default [] raw)) as Hc. rewrite H in Hc.
    destruct a as [|c0 a]; [done|].
    apply trimmed_nonempty. simpl in Hc. by apply negb_true_iff in Hc. }
  erewrite parseRssTitle_pieces
    by (rewrite H, split_two by done; reflexivity).
  cbn [title year stars head]. repeat split.
  destruct (match_title_year (trim a)) as [[[|x t] y]|]; try done.
  by destruct (trim a).
Qed.

Lemma parseRssTitle_two_separators_witness :
  year (parseRssTitle (Some (lit "Heat, 1995 - " ++ [0x2605; 0x2605] ++ lit " - rewatch")))
  = snd <$> match_title_year (trim (lit "Heat, 1995"))
  /\ stars (parseRssTitle (Some (lit "Heat, 1995 - " ++ [0x2605; 0x2605] ++ lit " - rewatch")))
     = or_null (Some (trim [0x2605; 0x2605]))
  /\ title (parseRssTitle (Some (lit "Heat, 1995 - " ++ [0x2605; 0x2605] ++ lit " - rewatch")))
     = match match_title_year (trim (lit "Heat, 1995")) with
       | Some ([], _) =>
           trim (default [] (Some (lit "Heat, 1995 - " ++ [0x2605; 0x2605] ++ lit " - rewatch")))
       | Some (t, _) => t
       | None => trim (lit "Heat, 1995")
       end.
Proof.
  apply (parseRssTitle_two_separators
           (Some (lit "Heat, 1995 - " ++ [0x2605; 0x2605] ++ lit " - rewatch"))
           (lit "Heat, 1995") [0x2605; 0x2605] (lit "rewatch"));
    reflexivity.
Defined.

(** C10 as stated fails twice.  With an empty text before the year the
    title is the whole raw title, the part after the second separator
    included; and when the raw title starts with white space, trimming
    removes the first separator, so that the text after the second one is
    read as the glyphs. *)
Lemma parseRssTitle_uses_text_after_second_separator :
  title (parseRssTitle (Some (lit ", 1986 - " ++ [0x2605; 0x2605] ++ lit " - junk")))
  = lit ", 1986 - " ++ [0x2605; 0x2605] ++ lit " - junk"
  /\ stars (parseRssTitle (Some (lit " - x - " ++ [0x2605; 0x2605]))) = Some [0x2605; 0x2605]
  /\ starsToNumber (stars (parseRssTitle (Some (lit " - x - " ++ [0x2605; 0x2605]))))
     = Some (Q2Qc 2).
Proof. repeat split; reflexivity. Qed.

(** ** Null and zero, range, order *)

(** C5, as amended.  An absent or empty glyph string gives null, and so
    does every glyph string whose contributions sum to zero: the result is
    null exactly in these cases and is never the number 0. *)
Theorem starsToNumber_null (stars : option jsstring) :
  (starsToNumber stars = None <->
   stars = None \/ stars = Some [] \/ exists s, stars = Some s /\ star_sum s = 0%Qc)
  /\ starsToNumber stars <> Some 0%Qc.
Proof.
  unfold starsToNumber.
  destruct stars as [[|c s]|]; cbn [or_null truthy]; cbv zeta.
  - split; [|done]. split; [|done]. by right; left.
  - destruct (decide (star_sum (c :: s) = 0%Qc)) as [E|E].
    + split; [|done]. split; [|done]. intros _. right; right. by exists (c :: s).
    + split; [|congruence]. split; [done|].
      intros [?|[?|(s' & ? & ?)]]; simplify_eq.
  - split; [|done]. split; [|done]. by left.
Qed.

(** C5 as stated fails: a glyph string without glyphs sums to zero and
    gives null, as the empty string does. *)
Lemma starsToNumber_zero_is_null :
  star_sum (lit "n/a") = 0%Qc
  /\ starsToNumber (Some (lit "n/a")) = None
  /\ starsToNumber (Some []) = None.
Proof. repeat split; reflexivity. Qed.

(** C8, as amended.  A non-null rating is a positive whole number of
    halves and is at most the number of code units of the glyph part; it
    is not bounded by 5. *)
Theorem rating_range (raw : option jsstring) (r : Qc) :
  starsToNumber (stars (parseRssTitle raw)) = Some r ->
  exists (s : jsstring) (k : nat),
    stars (parseRssTitle raw) = Some s
    /\ r = (Q2Qc (inject_Z (Z.of_nat k)) * half)%Qc
    /\ (0 < k)%nat
    /\ (0 < r)%Qc
    /\ (r <= Q2Qc (inject_Z (Z.of_nat (length s))))%Qc.
Proof.
  destruct (stars (parseRssTitle raw)) as [s|]; [|done].
  rewrite starsToNumber_Some. case_decide as Hk; [done|].
  intros [= <-]. exists s, (star_halves s). repeat split.
  - apply halves_multiple.
  - lia.
  - rewrite <- halves_zero. apply halves_lt. lia.
  - rewrite <- halves_double. apply halves_le, star_halves_bound.
Qed.

Lemma rating_range_witness :
  exists (s : jsstring) (k : nat),
    stars (parseRssTitle (Some (raw_title (lit "Stand by Me") (lit "1986")
                                          [0x2605; 0x2605; 0x2605; 0x2605]))) = Some s
    /\ Q2Qc 4 = (Q2Qc (inject_Z (Z.of_nat k)) * half)%Qc
    /\ (0 < k)%nat
    /\ (0 < Q2Qc 4)%Qc
    /\ (Q2Qc 4 <= Q2Qc (inject_Z (Z.of_nat (length s))))%Qc.
Proof.
  apply (rating_range
           (Some (raw_title (lit "Stand by Me") (lit "1986")
                            [0x2605; 0x2605; 0x2605; 0x2605])) (Q2Qc 4)).
  reflexivity.
Defined.

(** C8 as stated fails: six full stars give 6. *)
Lemma rating_above_five :
  starsToNumber
    (stars (parseRssTitle (Some (raw_title (lit "Tenet") (lit "2020")
              [0x2605; 0x2605; 0x2605; 0x2605; 0x2605; 0x2605]))))
  = Some (Q2Qc 6)
  /\ (Q2Qc 5 < Q2Qc 6)%Qc.
Proof. split; reflexivity. Qed.

(** C9.  Two glyph strings that are permutations of each other, code unit
    by code unit, get the same rating. *)
Theorem starsToNumber_permutation (s1 s2 : jsstring) :
  Permutation s1 s2 -> starsToNumber (Some s1) = starsToNumber (Some s2).
Proof.
  intros H. rewrite !starsToNumber_Some.
  by rewrite (star_halves_perm s1 s2).
Qed.

Lemma starsToNumber_permutation_witness :
  starsToNumber (Some [0x2605; 0xBD; 0x2605]) = starsToNumber (Some [0xBD; 0x2605; 0x2605]).
Proof.
  apply (starsToNumber_permutation [0x2605; 0xBD; 0x2605] [0xBD; 0x2605; 0x2605]).
  apply perm_trans with [0xBD; 0x2605; 0x2605]; [apply perm_swap|apply Permutation_refl].
Defined.

(** ** The payload *)

Section Payload.
Context (title : jsstring) (director watchedDate : option jsstring)
  (rating : option Qc) (posterUrl : option jsstring)
  (goals status mediaType format letterboxdUrl : jsstring).

#[local] Abbreviation props :=
  (movie_props title director watchedDate rating posterUrl
               goals status mediaType format letterboxdUrl).

Lemma movie_props_Name : props !! "Name" = Some (PTitle title).
Proof. by props_lookup. Qed.

Lemma movie_props_Author :
  props !! "Author" = Some (PRichText (option_list (or_null director))).
Proof. props_lookup. by destruct (or_null director). Qed.

Lemma movie_props_Date :
  props !! "Date Read/Watched" = PDate <$> or_null watchedDate.
Proof. props_lookup. by destruct (or_null watchedDate). Qed.

Lemma movie_props_Rating : props !! "My Rating" = PNumber <$> rating.
Proof. props_lookup. by destruct rating. Qed.

Lemma movie_props_Url : props !! "Letterboxd URL" = Some (PUrl letterboxdUrl).
Proof. by props_lookup. Qed.

Lemma movie_props_Image :
  props !! "Image" = poster_files <$> or_null posterUrl.
Proof. props_lookup. by destruct (or_null posterUrl). Qed.

Lemma movie_props_defined k : props !! k <> Some PUndefined.
Proof.
  unfold movie_props, remove_undefined. cbv zeta.
  intros H. apply map_lookup_filter_Some in H as [_ H]. done.
Qed.

End Payload.

(** ** The loop body, step by step *)

Lemma head_take_one {A} (l : list A) : head (take 1 l) = head l.
Proof. by destruct l. Qed.

Lemma process_item_unfold env it w :
  process_item env it w =
  if truthy (link_of it) then
    match notion_query_rejects env (link_of it) with
    | Some e => (Rejected e, emit (ENotionQuery (link_of it)) w)
    | None =>
        match head (List.filter (has_url (link_of it)) (pages w)) with
        | Some _ => (Fulfilled tt, emit (ENotionQuery (link_of it)) w)
        | None =>
            match enrich env (title (parseRssTitle (Some (rawTitle_of it))))
                    (year (parseRssTitle (Some (rawTitle_of it))))
                    (rss_poster env it)
                    (emit (ENotionQuery (link_of it)) w) with
            | (Rejected e, w1) => (Rejected e, w1)
            | (Fulfilled (d, p), w1) =>
                match notion_create_rejects env (item_props it d p) with
                | Some e =>
                    (Rejected e,
                     emit (ENotionCreate (item_props it d p)) (emit (ELog (item_log it)) w1))
                | None =>
                    (Fulfilled tt,
                     {| pages := pages w1 ++ [item_props it d p];
                        trace := trace w1 ++ [ELog (item_log it);
                                              ENotionCreate (item_props it d p);
                                              ESleep 350] |})
                end
            end
        end
    end
  else (Fulfilled tt, w).
Proof.
  unfold process_item. cbv zeta.
  destruct (truthy (link_of it)); [|done]. cbn [negb].
  unfold bind at 1. unfold notionFindByLetterboxdUrl. unfold bind at 1.
  unfold notion_databases_query.
  destruct (notion_query_rejects env (link_of it)); [done|].
  unfold ret at 1. rewrite head_take_one.
  destruct (head _); [done|].
  unfold bind at 1.
  destruct (enrich _ _ _ _ _) as [[[d p]|e] w1]; [|done].
  unfold bind, console_log, notionCreateMoviePage, notion_pages_create, sleep.
  fold (item_props it d p). fold (item_log it).
  destruct (notion_create_rejects env _); [done|].
  unfold emit. cbn [pages trace]. by rewrite <- !app_assoc.
Qed.

Lemma enrich_unfold env title year posterUrl w :
  enrich env title year posterUrl w =
  match or_null (TMDB_KEY env) with
  | None => (Fulfilled (None, posterUrl), w)
  | Some _ =>
      match tmdb_search_response env title (or_null year) with
      | Rejected e => (Rejected e, emit (ETmdbSearch title (or_null year)) w)
      | Fulfilled res =>
          if ok res then
            match body res with
            | Rejected e => (Rejected e, emit (ETmdbSearch title (or_null year)) w)
            | Fulfilled json =>
                match results json ≫= head with
                | None => (Fulfilled (None, posterUrl), emit (ETmdbSearch title (or_null year)) w)
                | Some hit =>
                    match truthy_id (hit_id hit) with
                    | None =>
                        (Fulfilled (None, posterUrl), emit (ETmdbSearch title (or_null year)) w)
                    | Some movieId =>
                        match tmdbGetDirector env movieId
                                (emit (ETmdbSearch title (or_null year)) w) with
                        | (Rejected e, w1) => (Rejected e, w1)
                        | (Fulfilled director, w1) =>
                            (Fulfilled (director,
                                        match tmdbPosterUrl (poster_path hit) with
                                        | Some u => Some u
                                        | None => posterUrl
                                        end), w1)
                        end
                    end
                end
            end
          else (Fulfilled (None, posterUrl), emit (ETmdbSearch title (or_null year)) w)
      end
  end.
Proof.
  unfold enrich. destruct (or_null (TMDB_KEY env)); [|done].
  unfold bind at 1. unfold tmdbSearchMovie. cbv zeta. unfold bind at 1. unfold await.
  destruct (tmdb_search_response _ _ _) as [res|e]; [|done].
  destruct (ok res); cbn [negb]; [|done].
  unfold bind at 1. unfold settle. destruct (body res) as [json|e]; [|done].
  unfold ret at 1. destruct (results json ≫= head) as [hit|]; [|done].
  destruct (truthy_id (hit_id hit)) as [i|]; [|done].
  unfold bind at 1.
  destruct (tmdbGetDirector _ _ _) as [[director|e] w1]; done.
Qed.

Lemma tmdbGetDirector_unfold env movieId w :
  tmdbGetDirector env movieId w =
  match tmdb_credits_response env movieId with
  | Rejected e => (Rejected e, emit (ETmdbCredits movieId) w)
  | Fulfilled res =>
      if ok res then
        match body res with
        | Rejected e => (Rejected e, emit (ETmdbCredits movieId) w)
        | Fulfilled json =>
            (Fulfilled (or_null (List.find is_director (default [] (crew json)) ≫= name)),
             emit (ETmdbCredits movieId) w)
        end
      else (Fulfilled None, emit (ETmdbCredits movieId) w)
  end.
Proof.
  unfold tmdbGetDirector, bind, await, settle.
  destruct (tmdb_credits_response env movieId) as [res|e]; [|done].
  destruct (ok res); cbn [negb]; [|done].
  by destruct (body res).
Qed.

Lemma creates_app t1 t2 : creates (t1 ++ t2) = creates t1 ++ creates t2.
Proof. apply omap_app. Qed.

Lemma has_url_true u (p : page) :
  p !! "Letterboxd URL" = Some (PUrl u) -> has_url u p = true.
Proof. intros H. unfold has_url. rewrite H. by apply bool_decide_eq_true_2. Qed.

Lemma has_url_false u (p : page) :
  p !! "Letterboxd URL" <> Some (PUrl u) -> has_url u p = false.
Proof.
  intros H. unfold has_url.
  destruct (p !! "Letterboxd URL") as [[]|]; try done.
  apply bool_decide_eq_false_2. congruence.
Qed.

Lemma filter_url_free u ps : url_free u ps -> List.filter (has_url u) ps = [].
Proof.
  induction 1 as [|p ps Hp _ IH]; [done|].
  cbn [List.filter]. by rewrite has_url_false.
Qed.

Lemma head_filter_found u (p : page) ps :
  p ∈ ps -> has_url u p = true -> head (List.filter (has_url u) ps) <> None.
Proof.
  intros Hin Hp.
  assert (In p (List.filter (has_url u) ps)) as H.
  { apply filter_In. split; [by apply list_elem_of_In|done]. }
  by destruct (List.filter (has_url u) ps).
Qed.

(** C1.  When the database holds a page whose "Letterboxd URL" is the
    item's link at the time the loop body runs, the body issues no create
    call and leaves the pages of the database as they are. *)
Theorem no_create_for_existing_link (env : Env) (it : FeedItem) (w : World) (p : page) :
  p ∈ pages w ->
  p !! "Letterboxd URL" = Some (PUrl (link_of it)) ->
  creates (trace (snd (process_item env it w))) = creates (trace w)
  /\ pages (snd (process_item env it w)) = pages w.
Proof.
  intros Hin Hp. rewrite process_item_unfold.
  destruct (truthy (link_of it)); [|done].
  pose proof (head_filter_found _ _ _ Hin (has_url_true _ _ Hp)) as Hf.
  destruct (notion_query_rejects env (link_of it)).
  - cbn [snd emit trace pages]. by rewrite creates_app, app_nil_r.
  - destruct (head _); [|done].
    cbn [snd emit trace pages]. by rewrite creates_app, app_nil_r.
Qed.

Lemma or_null_idemp x : or_null (or_null x) = or_null x.
Proof. destruct x as [[|c s]|]; done. Qed.

Lemma rss_poster_or_null env it : or_null (rss_poster env it) = rss_poster env it.
Proof. unfold rss_poster, posterFromRssDescription. apply or_null_idemp. Qed.

Lemma item_props_Author it p : item_props it None p !! "Author" = Some (PRichText []).
Proof. unfold item_props. by rewrite movie_props_Author. Qed.

(** C6.  With no TMDB key, an item that is new to the database is written
    without any TMDB call: the query, the log line and the create call
    (and the pause after an accepted create) are all there is.  The
    "Author" of the payload is the empty rich text and its "Image" is the
    image of the RSS description, or absent when that has none. *)
Theorem no_key_no_enrichment (env : Env) (it : FeedItem) (w : World) :
  or_null (TMDB_KEY env) = None ->
  truthy (link_of it) = true ->
  notion_query_rejects env (link_of it) = None ->
  url_free (link_of it) (pages w) ->
  exists rest,
    trace (snd (process_item env it w)) =
      trace w ++ ENotionQuery (link_of it) :: ELog (item_log it)
        :: ENotionCreate
             (item_props it None (rss_poster env it))
        :: rest
    /\ (rest = [] \/ rest = [ESleep 350])
    /\ item_props it None (rss_poster env it)
         !! "Author" = Some (PRichText [])
    /\ item_props it None (rss_poster env it)
         !! "Image"
       = poster_files <$> rss_poster env it.
Proof.
  intros Hkey Hlink Hq Hfree.
  rewrite process_item_unfold, Hlink, Hq, filter_url_free by done.
  cbn [head]. rewrite enrich_unfold, Hkey. fold (rss_poster env it).
  set (props := item_props it None _).
  assert (props !! "Author" = Some (PRichText [])
          /\ props !! "Image"
             = poster_files <$> rss_poster env it)
    as [HA HI].
  { split; [apply item_props_Author|].
    subst props. unfold item_props. rewrite movie_props_Image.
    by rewrite rss_poster_or_null. }
  destruct (notion_create_rejects env props).
  - exists []. cbn [snd emit trace]. rewrite <- !app_assoc.
    split; [done|]. split; [by left|]. by split.
  - exists [ESleep 350]. cbn [snd emit trace]. rewrite <- !app_assoc.
    split; [done|]. split; [by right|]. by split.
Qed.

Lemma no_create_for_existing_link_witness :
  creates (trace (snd (process_item (sample_env None unreachable unreachable)
                                    sample_item synced_world)))
  = creates (trace synced_world)
  /\ pages (snd (process_item (sample_env None unreachable unreachable)
                              sample_item synced_world))
     = pages synced_world.
Proof.
  apply (no_create_for_existing_link (sample_env None unreachable unreachable)
           sample_item synced_world (item_props sample_item None None)).
  - apply list_elem_of_here.
  - unfold item_props. apply movie_props_Url.
Defined.

Lemma no_key_no_enrichment_witness :
  exists rest,
    trace (snd (process_item (sample_env None unreachable unreachable)
                             sample_item empty_world)) =
      trace empty_world ++ ENotionQuery (link_of sample_item) :: ELog (item_log sample_item)
        :: ENotionCreate
             (item_props sample_item None
                (rss_poster (sample_env None unreachable unreachable) sample_item))
        :: rest
    /\ (rest = [] \/ rest = [ESleep 350])
    /\ item_props sample_item None
         (rss_poster (sample_env None unreachable unreachable) sample_item)
         !! "Author" = Some (PRichText [])
    /\ item_props sample_item None
         (rss_poster (sample_env None unreachable unreachable) sample_item)
         !! "Image"
       = poster_files <$> rss_poster (sample_env None unreachable unreachable) sample_item.
Proof.
  apply (no_key_no_enrichment (sample_env None unreachable unreachable)
           sample_item empty_world);
    [reflexivity | reflexivity | reflexivity | apply Forall_nil_2].
Defined.

(** C4.  The create call of [notionCreateMoviePage] carries a payload in
    which the date, the rating and the image are present exactly when
    their value is not null (empty strings count as null for the date and
    the image), the author is always present, as the empty rich text when
    the director is null, and no key holds [undefined]. *)
Theorem create_payload_omits_null (env : Env) (title : jsstring)
    (director watchedDate : option jsstring) (rating : option Qc)
    (posterUrl : option jsstring)
    (goals status mediaType format letterboxdUrl : jsstring) (w : World) :
  exists props : page,
    trace (snd (notionCreateMoviePage env title director watchedDate rating posterUrl
                  goals status mediaType format letterboxdUrl w))
    = trace w ++ [ENotionCreate props]
    /\ props !! "Date Read/Watched" = PDate <$> or_null watchedDate
    /\ props !! "My Rating" = PNumber <$> rating
    /\ props !! "Image" = poster_files <$> or_null posterUrl
    /\ props !! "Author" = Some (PRichText (option_list (or_null director)))
    /\ forall k, props !! k <> Some PUndefined.
Proof.
  exists (movie_props title director watchedDate rating posterUrl
            goals status mediaType format letterboxdUrl).
  split.
  - unfold notionCreateMoviePage, notion_pages_create.
    by destruct (notion_create_rejects env _).
  - split; [apply movie_props_Date|]. split; [apply movie_props_Rating|].
    split; [apply movie_props_Image|]. split; [apply movie_props_Author|].
    apply movie_props_defined.
Qed.

(** ** Failing enrichment *)

Lemma item_props_Image (env : Env) it (p : option jsstring) :
  or_null p = p -> item_props it None p !! "Image" = poster_files <$> p.
Proof. intros H. unfold item_props. by rewrite movie_props_Image, H. Qed.

Lemma hit_poster_or_null env it hit :
  or_null (hit_poster env it hit) = hit_poster env it hit.
Proof.
  unfold hit_poster, tmdbPosterUrl.
  destruct (or_null (poster_path hit)); [done|]. apply rss_poster_or_null.
Qed.

(** The failures the script does absorb.  For an item that is new to the
    database, with a TMDB key set: when the search answers with an HTTP
    error status, and when
    the search finds a film and the credits lookup answers with an HTTP
    error status, the item is still written, with an empty "Author".  After
    the failed search the image is the one of the RSS description; after
    the failed credits lookup it is the TMDB poster of the hit, or the RSS
    one when the hit has no poster path.  The loop body returns normally
    when Notion accepts the create call. *)
Theorem enrichment_http_error_degrades (env : Env) (it : FeedItem) (w : World) :
  truthy (link_of it) = true ->
  or_null (TMDB_KEY env) <> None ->
  notion_query_rejects env (link_of it) = None ->
  url_free (link_of it) (pages w) ->
  (forall res,
     search_response env it = Fulfilled res -> ok res = false ->
     exists rest,
       trace (snd (process_item env it w)) =
         trace w ++ ENotionQuery (link_of it) :: search_event it :: ELog (item_log it)
           :: ENotionCreate (item_props it None (rss_poster env it)) :: rest
       /\ item_props it None (rss_poster env it) !! "Author" = Some (PRichText [])
       /\ item_props it None (rss_poster env it) !! "Image"
          = poster_files <$> rss_poster env it
       /\ (notion_create_rejects env (item_props it None (rss_poster env it)) = None ->
           fst (process_item env it w) = Fulfilled tt))
  /\ (forall res json hit movieId cres,
        search_response env it = Fulfilled res -> ok res = true ->
        body res = Fulfilled json -> results json ≫= head = Some hit ->
        truthy_id (hit_id hit) = Some movieId ->
        tmdb_credits_response env movieId = Fulfilled cres -> ok cres = false ->
        exists rest,
          trace (snd (process_item env it w)) =
            trace w ++ ENotionQuery (link_of it) :: search_event it
              :: ETmdbCredits movieId :: ELog (item_log it)
              :: ENotionCreate (item_props it None (hit_poster env it hit)) :: rest
          /\ item_props it None (hit_poster env it hit) !! "Author" = Some (PRichText [])
          /\ item_props it None (hit_poster env it hit) !! "Image"
             = poster_files <$> hit_poster env it hit
          /\ (notion_create_rejects env (item_props it None (hit_poster env it hit)) = None ->
              fst (process_item env it w) = Fulfilled tt)).
Proof.
  intros Hlink Hkey Hq Hfree.
  destruct (or_null (TMDB_KEY env)) as [key|] eqn:Ekey; [clear Hkey|done].
  split.
  - intros res Hres Hok.
    rewrite process_item_unfold, Hlink, Hq, filter_url_free by done.
    cbn [head]. rewrite enrich_unfold, Ekey.
    fold (search_response env it). fold (search_event it). rewrite Hres, Hok.
    destruct (notion_create_rejects env _) eqn:Hc.
    + exists []. cbn [snd emit trace]. rewrite <- !app_assoc.
      split; [done|]. split; [apply item_props_Author|].
      split; [apply (item_props_Image env), rss_poster_or_null|done].
    + exists [ESleep 350]. cbn [fst snd emit trace]. rewrite <- !app_assoc.
      split; [done|]. split; [apply item_props_Author|].
      split; [apply (item_props_Image env), rss_poster_or_null|done].
  - intros res json hit movieId cres Hres Hok Hbody Hhit Hid Hcres Hcok.
    rewrite process_item_unfold, Hlink, Hq, filter_url_free by done.
    cbn [head]. rewrite enrich_unfold, Ekey.
    fold (search_response env it). fold (search_event it).
    rewrite Hres, Hok, Hbody, Hhit, Hid, tmdbGetDirector_unfold, Hcres, Hcok.
    fold (hit_poster env it hit).
    destruct (notion_create_rejects env _) eqn:Hc.
    + exists []. cbn [snd emit trace]. rewrite <- !app_assoc.
      split; [done|]. split; [apply item_props_Author|].
      split; [apply (item_props_Image env), hit_poster_or_null|done].
    + exists [ESleep 350]. cbn [fst snd emit trace]. rewrite <- !app_assoc.
      split; [done|]. split; [apply item_props_Author|].
      split; [apply (item_props_Image env), hit_poster_or_null|done].
Qed.

Lemma enrichment_http_error_degrades_witness :
  exists rest,
    trace (snd (process_item (sample_env (Some (lit "key")) unavailable unreachable)
                             sample_item empty_world)) =
      trace empty_world ++ ENotionQuery (link_of sample_item) :: search_event sample_item
        :: ELog (item_log sample_item)
        :: ENotionCreate
             (item_props sample_item None
                (rss_poster (sample_env (Some (lit "key")) unavailable unreachable)
                            sample_item))
        :: rest.
Proof.
  destruct (proj1 (enrichment_http_error_degrades
                     (sample_env (Some (lit "key")) unavailable unreachable)
                     sample_item empty_world
                     eq_refl ltac:(discriminate) eq_refl (Forall_nil_2 _))
                  _ eq_refl eq_refl) as (rest & Htrace & _).
  by exists rest.
Defined.

(** Four runs on the sample feed in which a TMDB call is rejected: the
    search unreachable, the search body no JSON, the credits unreachable,
    the credits body no JSON.  Each ends with exit code 1 and without a
    create call. *)
Lemma enrichment_rejection_aborts_run :
  (fst (run (sample_env (Some (lit "key")) unreachable unreachable) empty_world) = 1
   /\ creates (trace (snd (run (sample_env (Some (lit "key")) unreachable unreachable)
                               empty_world))) = [])
  /\ (fst (run (sample_env (Some (lit "key")) garbled unreachable) empty_world) = 1
      /\ creates (trace (snd (run (sample_env (Some (lit "key")) garbled unreachable)
                                  empty_world))) = [])
  /\ (fst (run (sample_env (Some (lit "key")) one_hit unreachable) empty_world) = 1
      /\ creates (trace (snd (run (sample_env (Some (lit "key")) one_hit unreachable)
                                  empty_world))) = [])
  /\ (fst (run (sample_env (Some (lit "key")) one_hit garbled) empty_world) = 1
      /\ creates (trace (snd (run (sample_env (Some (lit "key")) one_hit garbled)
                                  empty_world))) = []).
Proof. repeat split; reflexivity. Qed.

(** ** The whole run *)

Lemma main_fetched env w res xml feed :
  rss_response env = Fulfilled res -> ok res = true ->
  body res = Fulfilled xml -> xml_parse env xml = Fulfilled feed ->
  main env w =
  (let! _ := for_of (feed_items feed) (process_item env) in
   console_log (lit "Sync complete.")) (emit (EFetchRss (RSS_URL env)) w).
Proof.
  intros Hres Hok Hbody Hxml.
  unfold main. unfold bind at 1. unfold fetchText. unfold bind at 1.
  unfold await. rewrite Hres, Hok. cbn [negb]. unfold settle at 1.
  rewrite Hbody. unfold bind at 1. unfold settle at 1. by rewrite Hxml.
Qed.

Lemma for_of_one {A} (x : A) (body : A -> Async unit) w :
  for_of [x] body w =
  match body x w with
  | (Fulfilled _, w') => (Fulfilled tt, w')
  | (Rejected e, w') => (Rejected e, w')
  end.
Proof.
  cbn [for_of]. unfold bind, ret. by destruct (body x w) as [[[]|e] w'].
Qed.

(** C7, as amended.  A feed of one item titled "Stand by Me, 1986 - ★★★★"
    with the link "https://example.com/film/x", no page with that link in
    the database, no TMDB key, Notion accepting the calls: the run ends
    with exit code 0 and makes exactly one create call, which adds one page
    to the database.  Its "Name" is "Stand by Me", its "My Rating" is 4,
    its "Author" is present as the empty rich text, its "Image" is the
    image of the RSS description or absent, and its "Letterboxd URL" is the
    link. *)
Theorem end_to_end_stand_by_me (env : Env) (w : World) (res : Response jsstring)
    (xml : jsstring) (feed : option Feed) (it : FeedItem) :
  or_null (TMDB_KEY env) = None ->
  rss_response env = Fulfilled res -> ok res = true -> body res = Fulfilled xml ->
  xml_parse env xml = Fulfilled feed -> feed_items feed = [it] ->
  head (item_title it) = Some (lit "Stand by Me, 1986 - " ++ FOUR_STARS) ->
  head (item_link it) = Some (lit "https://example.com/film/x") ->
  url_free (lit "https://example.com/film/x") (pages w) ->
  notion_query_rejects env (lit "https://example.com/film/x") = None ->
  (forall p, notion_create_rejects env p = None) ->
  exists props : page,
    fst (run env w) = 0
    /\ pages (snd (run env w)) = pages w ++ [props]
    /\ creates (trace (snd (run env w))) = creates (trace w) ++ [props]
    /\ props !! "Name" = Some (PTitle (lit "Stand by Me"))
    /\ props !! "My Rating" = Some (PNumber (Q2Qc 4))
    /\ props !! "Author" = Some (PRichText [])
    /\ props !! "Image" = poster_files <$> rss_poster env it
    /\ props !! "Letterboxd URL" = Some (PUrl (lit "https://example.com/film/x")).
Proof.
  intros Hkey Hres Hok Hbody Hxml Hitems Htitle Hlink Hfree Hq Hc.
  assert (link_of it = lit "https://example.com/film/x") as El.
  { unfold link_of. by rewrite Hlink. }
  assert (rawTitle_of it = lit "Stand by Me, 1986 - " ++ FOUR_STARS) as Et.
  { unfold rawTitle_of. by rewrite Htitle. }
  exists (item_props it None (rss_poster env it)).
  assert (process_item env it (emit (EFetchRss (RSS_URL env)) w) =
          (Fulfilled tt,
           {| pages := pages w ++ [item_props it None (rss_poster env it)];
              trace := trace w ++ [EFetchRss (RSS_URL env); ENotionQuery (link_of it);
                                   ELog (item_log it);
                                   ENotionCreate (item_props it None (rss_poster env it));
                                   ESleep 350] |})) as Hitem.
  { rewrite <- El in Hq, Hfree.
    rewrite process_item_unfold.
    replace (truthy (link_of it)) with true by (by rewrite El).
    rewrite Hq, filter_url_free by done.
    cbn [head]. rewrite enrich_unfold, Hkey.
    fold (rss_poster env it). rewrite Hc.
    cbn [emit pages trace]. by rewrite <- !app_assoc. }
  assert (run env w =
          (0, {| pages := pages w ++ [item_props it None (rss_poster env it)];
                 trace := trace w ++ [EFetchRss (RSS_URL env); ENotionQuery (link_of it);
                                      ELog (item_log it);
                                      ENotionCreate (item_props it None (rss_poster env it));
                                      ESleep 350; ELog (lit "Sync complete.")] |})) as Hrun.
  { unfold run. rewrite (main_fetched env w res xml feed) by done.
    unfold bind. rewrite Hitems, for_of_one, Hitem.
    unfold console_log, emit. cbn [pages trace]. by rewrite <- app_assoc. }
  rewrite Hrun. cbn [fst snd pages trace].
  split; [done|]. split; [done|]. split.
  { by rewrite creates_app. }
  split.
  { unfold item_props. rewrite movie_props_Name, Et. done. }
  split.
  { unfold item_props. rewrite movie_props_Rating, Et. done. }
  split; [apply item_props_Author|].
  split; [apply (item_props_Image env), rss_poster_or_null|].
  unfold item_props. by rewrite movie_props_Url, El.
Qed.

Lemma end_to_end_stand_by_me_witness :
  exists props : page,
    fst (run (sample_env None unreachable unreachable) empty_world) = 0
    /\ pages (snd (run (sample_env None unreachable unreachable) empty_world))
       = pages empty_world ++ [props]
    /\ creates (trace (snd (run (sample_env None unreachable unreachable) empty_world)))
       = creates (trace empty_world) ++ [props]
    /\ props !! "Name" = Some (PTitle (lit "Stand by Me"))
    /\ props !! "My Rating" = Some (PNumber (Q2Qc 4))
    /\ props !! "Author" = Some (PRichText [])
    /\ props !! "Image"
       = poster_files <$> rss_poster (sample_env None unreachable unreachable) sample_item
    /\ props !! "Letterboxd URL" = Some (PUrl (lit "https://example.com/film/x")).
Proof.
  apply (end_to_end_stand_by_me (sample_env None unreachable unreachable) empty_world
           {| ok := true; status := 200; body := Fulfilled (lit "<rss/>") |}
           (lit "<rss/>") (Some sample_feed) sample_item);
    try reflexivity.
  apply Forall_nil_2.
Defined.

(** C7 as stated fails in one point: the director field is not omitted.
    The one page the run creates has the key "Author", bound to the empty
    rich text. *)
Lemma end_to_end_author_present :
  (fun p : page => p !! "Author")
    <$> creates (trace (snd (run (sample_env None unreachable unreachable) empty_world)))
  = [Some (PRichText [])].
Proof. reflexivity. Qed.

(** ** The invariant of the destination store *)

Lemma tmdbGetDirector_pages env movieId w :
  pages (snd (tmdbGetDirector env movieId w)) = pages w.
Proof.
  rewrite tmdbGetDirector_unfold.
  destruct (tmdb_credits_response env movieId) as [res|e]; [|done].
  destruct (ok res); [|done]. by destruct (body res).
Qed.

Lemma enrich_pages env title year posterUrl w :
  pages (snd (enrich env title year posterUrl w)) = pages w.
Proof.
  rewrite enrich_unfold.
  destruct (or_null (TMDB_KEY env)); [|done].
  destruct (tmdb_search_response _ _ _) as [res|e]; [|done].
  destruct (ok res); [|done].
  destruct (body res) as [json|e]; [|done].
  destruct (results json ≫= head) as [hit|]; [|done].
  destruct (truthy_id (hit_id hit)) as [movieId|]; [|done].
  pose proof (tmdbGetDirector_pages env movieId
                (emit (ETmdbSearch title (or_null year)) w)) as H.
  by destruct (tmdbGetDirector _ _ _) as [[director|e] w1].
Qed.

Lemma head_filter_None u ps :
  head (List.filter (has_url u) ps) = None -> List.filter (has_url u) ps = [].
Proof. by destruct (List.filter (has_url u) ps). Qed.

(** The loop body leaves the pages alone or adds the page of the item, and
    adds it only when no page has the item's link. *)
Lemma process_item_pages env it w :
  pages (snd (process_item env it w)) = pages w
  \/ (List.filter (has_url (link_of it)) (pages w) = []
      /\ exists d p, pages (snd (process_item env it w)) = pages w ++ [item_props it d p]).
Proof.
  rewrite process_item_unfold.
  destruct (truthy (link_of it)); [|by left].
  destruct (notion_query_rejects env (link_of it)); [by left|].
  destruct (head _) eqn:Hhead; [by left|].
  apply head_filter_None in Hhead.
  pose proof (enrich_pages env (title (parseRssTitle (Some (rawTitle_of it))))
                (year (parseRssTitle (Some (rawTitle_of it)))) (rss_poster env it)
                (emit (ENotionQuery (link_of it)) w)) as Hp.
  destruct (enrich _ _ _ _ _) as [[[d p]|e] w1]; cbn [snd] in Hp; [|by left].
  destruct (notion_create_rejects env _); [by left|].
  right. split; [done|]. exists d, p. cbn [snd pages]. by rewrite Hp.
Qed.

Lemma has_url_item_props u it d p :
  has_url u (item_props it d p) = bool_decide (link_of it = u).
Proof. unfold has_url, item_props. by rewrite movie_props_Url. Qed.

Lemma process_item_unique env it w :
  unique_links (pages w) -> unique_links (pages (snd (process_item env it w))).
Proof.
  intros Hu. destruct (process_item_pages env it w) as [->|(Hnone & d & p & ->)]; [done|].
  intros u. rewrite List.filter_app, length_app. cbn [List.filter].
  rewrite has_url_item_props. case_bool_decide as E.
  - subst u. rewrite Hnone. simpl. lia.
  - specialize (Hu u). simpl. lia.
Qed.

Lemma for_of_cons {A} (x : A) l (body : A -> Async unit) w :
  for_of (x :: l) body w =
  match body x w with
  | (Fulfilled _, w') => for_of l body w'
  | (Rejected e, w') => (Rejected e, w')
  end.
Proof. cbn [for_of]. unfold bind. by destruct (body x w) as [[[]|e] w']. Qed.

Lemma for_of_unique env items w :
  unique_links (pages w) ->
  unique_links (pages (snd (for_of items (process_item env) w))).
Proof.
  revert w. induction items as [|it items IH]; intros w Hu; [done|].
  rewrite for_of_cons.
  pose proof (process_item_unique env it w Hu) as H.
  destruct (process_item env it w) as [[[]|e] w']; [by apply IH|done].
Qed.

Lemma main_unfold env w :
  main env w =
  match rss_response env with
  | Rejected e => (Rejected e, emit (EFetchRss (RSS_URL env)) w)
  | Fulfilled res =>
      if ok res then
        match body res with
        | Rejected e => (Rejected e, emit (EFetchRss (RSS_URL env)) w)
        | Fulfilled xml =>
            match xml_parse env xml with
            | Rejected e => (Rejected e, emit (EFetchRss (RSS_URL env)) w)
            | Fulfilled feed =>
                match for_of (feed_items feed) (process_item env)
                        (emit (EFetchRss (RSS_URL env)) w) with
                | (Fulfilled _, w') => (Fulfilled tt, emit (ELog (lit "Sync complete.")) w')
                | (Rejected e, w') => (Rejected e, w')
                end
            end
        end
      else (Rejected (FetchFailed (status res) (RSS_URL env)),
            emit (EFetchRss (RSS_URL env)) w)
  end.
Proof.
  unfold main. unfold bind at 1. unfold fetchText. unfold bind at 1. unfold await.
  destruct (rss_response env) as [res|e]; [|done].
  destruct (ok res); cbn [negb]; [|done].
  unfold settle at 1. destruct (body res) as [xml|e]; [|done].
  unfold bind at 1. unfold settle. destruct (xml_parse env xml) as [feed|e]; [|done].
  unfold bind, console_log.
  by destruct (for_of _ _ _) as [[[]|e] w'].
Qed.

(** The pre-write check keeps the store's invariant: when no two pages of
    the database share a "Letterboxd URL" before the run, none do after it,
    however the run ends (two items of one feed with the same link
    included). *)
Theorem run_keeps_links_unique (env : Env) (w : World) :
  unique_links (pages w) -> unique_links (pages (snd (run env w))).
Proof.
  intros Hu. unfold run. rewrite main_unfold.
  destruct (rss_response env) as [res|e]; [|done].
  destruct (ok res); [|done].
  destruct (body res) as [xml|e]; [|done].
  destruct (xml_parse env xml) as [feed|e]; [|done].
  pose proof (for_of_unique env (feed_items feed)
                (emit (EFetchRss (RSS_URL env)) w) Hu) as H.
  by destruct (for_of _ _ _) as [[[]|e] w'].
Qed.

Lemma run_keeps_links_unique_witness :
  unique_links (pages (snd (run (sample_env None unreachable unreachable) synced_world))).
Proof.
  apply (run_keeps_links_unique (sample_env None unreachable unreachable) synced_world).
  intros u. cbn [synced_world pages List.filter].
  destruct (has_url u _); simpl; lia.
Defined.

(** ** Further properties of the normaliser and the loop body *)

(** A title without a separator has no glyph part: the rating is null, and
    the year is the one the whole trimmed title ends in, if any. *)
Theorem parseRssTitle_no_separator (raw : option jsstring) :
  contains SEP (trim (default [] raw)) = false ->
  stars (parseRssTitle raw) = None
  /\ starsToNumber (stars (parseRssTitle raw)) = None
  /\ year (parseRssTitle raw) = snd <$> match_title_year (trim (default [] raw)).
Proof.
  intros H.
  assert (trim (trim (default [] raw)) = trim (default [] raw)) as Htt.
  { apply trim_id; [apply trim_clean|].
    unfold trim at 1, trimEnd. rewrite rev_involutive. apply trimStart_clean. }
  erewrite parseRssTitle_pieces.
  2:{ unfold split. rewrite split_from_none by done. cbn [rev app map].
      by rewrite Htt. }
  done.
Qed.

Lemma parseRssTitle_no_separator_witness :
  stars (parseRssTitle (Some (lit "Heat, 1995"))) = None
  /\ starsToNumber (stars (parseRssTitle (Some (lit "Heat, 1995")))) = None
  /\ year (parseRssTitle (Some (lit "Heat, 1995")))
     = snd <$> match_title_year (trim (default [] (Some (lit "Heat, 1995")))).
Proof.
  apply (parseRssTitle_no_separator (Some (lit "Heat, 1995"))). reflexivity.
Defined.

(** An item without a link is passed over: nothing is asked, logged or
    written. *)
Theorem item_without_link_is_skipped (env : Env) (it : FeedItem) (w : World) :
  truthy (link_of it) = false -> process_item env it w = (Fulfilled tt, w).
Proof. intros H. by rewrite process_item_unfold, H. Qed.

Lemma item_without_link_is_skipped_witness :
  process_item (sample_env None unreachable unreachable)
    {| item_title := [lit "Heat, 1995"]; item_link := [];
       item_watchedDate := []; item_description := [] |} empty_world
  = (Fulfilled tt, empty_world).
Proof.
  apply (item_without_link_is_skipped (sample_env None unreachable unreachable)).
  reflexivity.
Defined.

(** * Further properties *)

(** ** The title pattern, both ways *)

Lemma match_year_tail_Some s y :
  match_year_tail s = Some y ->
  exists w, s = 44 :: w :: y /\ is_space w = true
            /\ length y = 4%nat /\ forallb is_digit y = true.
Proof.
  destruct s as [|c [|w [|d1 [|d2 [|d3 [|d4 [|e s]]]]]]]; try done.
  cbn [match_year_tail].
  destruct (c =? 44) eqn:Hc; [|done]. apply N.eqb_eq in Hc as ->.
  destruct (is_space w) eqn:Hw; [|done].
  destruct (is_digit d1) eqn:H1; [|done]. destruct (is_digit d2) eqn:H2; [|done].
  destruct (is_digit d3) eqn:H3; [|done]. destruct (is_digit d4) eqn:H4; [|done].
  intros [= <-]. exists w. cbn [forallb]. by rewrite H1, H2, H3, H4.
Qed.

(** The pattern matches a string exactly when the string is a text without
    line terminators, a comma, one white-space unit and four digits; the
    groups are then that text and those digits. *)
Theorem match_title_year_spec (s t y : jsstring) :
  match_title_year s = Some (t, y) <->
  exists w, s = t ++ 44 :: w :: y
            /\ existsb is_line_terminator t = false
            /\ is_space w = true
            /\ length y = 4%nat /\ forallb is_digit y = true.
Proof.
  split.
  - revert t. induction s as [|c s IH]; intros t H.
    + done.
    + rewrite match_title_year_cons in H.
      assert ((fun y0 => ([], y0)) <$> match_year_tail (c :: s)
              = Some (t, y) ->
              exists w, c :: s = t ++ 44 :: w :: y
                        /\ existsb is_line_terminator t = false
                        /\ is_space w = true
                        /\ length y = 4%nat /\ forallb is_digit y = true) as Hhere.
      { destruct (match_year_tail (c :: s)) as [y0|] eqn:E; [|done].
        intros [= <- <-]. apply match_year_tail_Some in E as (w & -> & ? & ? & ?).
        by exists w. }
      destruct (is_line_terminator c) eqn:Hc; [by apply Hhere|].
      destruct (match_title_year s) as [[t' y']|]; [|by apply Hhere].
      injection H as <- <-.
      destruct (IH t' eq_refl) as (w & -> & Ht & ? & ? & ?).
      exists w. cbn [existsb]. by rewrite Hc, Ht.
  - intros (w & -> & Ht & Hw & Hlen & Hy). by apply match_title_year_ok.
Qed.

(** ** What parseRssTitle returns *)

Lemma trim_trim s : trim (trim s) = trim s.
Proof.
  apply trim_id; [apply trim_clean|].
  unfold trim at 1, trimEnd. rewrite rev_involutive. apply trimStart_clean.
Qed.

Lemma split_from_nonempty sep k cur s : split_from sep k cur s <> [].
Proof.
  revert k cur. induction s as [|c s IH]; intros k cur; [done|].
  cbn [split_from]. destruct k; [|apply IH].
  destruct (starts_with sep (c :: s)); [done|apply IH].
Qed.

Lemma split_pieces raw :
  exists h t, map trim (split SEP (trim (default [] raw))) = trim h :: map trim t.
Proof.
  unfold split.
  pose proof (split_from_nonempty SEP 0 [] (trim (default [] raw))) as H.
  destruct (split_from _ _ _ _) as [|h t]; [done|]. by exists h, t.
Qed.

(** Whatever the raw title, a year that is not null is four digits, and a
    glyph part that is not null is non-empty and trimmed. *)
Theorem parseRssTitle_year_and_stars (raw : option jsstring) :
  (forall y, year (parseRssTitle raw) = Some y ->
             length y = 4%nat /\ forallb is_digit y = true)
  /\ (forall s, stars (parseRssTitle raw) = Some s -> s <> [] /\ trim s = s).
Proof.
  destruct (split_pieces raw) as (h & t & H).
  rewrite (parseRssTitle_pieces raw _ _ H). cbn [year stars]. split.
  - intros y Hy.
    destruct (match_title_year (trim h)) as [[t0 y0]|] eqn:E; [|done].
    injection Hy as <-. apply match_title_year_spec in E as (w & _ & _ & _ & ? & ?).
    done.
  - intros s Hs. destruct t as [|x t]; [done|].
    cbn [map head or_null] in Hs.
    destruct (truthy (trim x)) eqn:Hx; [|done]. injection Hs as <-.
    split; [by destruct (trim x)|apply trim_trim].
Qed.

Lemma starts_clean_prefix a b : a <> [] -> starts_clean (a ++ b) = starts_clean a.
Proof. by destruct a. Qed.

(** Whatever the raw title, the title does not start with white space, and
    it is empty only when the raw title is empty or all white space. *)
Theorem parseRssTitle_title (raw : option jsstring) :
  starts_clean (title (parseRssTitle raw)) = true
  /\ (title (parseRssTitle raw) = [] <-> trim (default [] raw) = []).
Proof.
  destruct (split_pieces raw) as (h & t & H).
  rewrite (parseRssTitle_pieces raw _ _ H). cbn [title].
  pose proof (trim_clean (default [] raw)) as Hs.
  pose proof (trim_clean h) as Hh.
  set (s := trim (default [] raw)) in *.
  assert (s = [] -> trim h = []) as Hempty.
  { intros E. rewrite E in H. by injection H as <-. }
  destruct (match_title_year (trim h)) as [[t0 y0]|] eqn:E.
  - apply match_title_year_spec in E as (w & E & _).
    destruct t0 as [|c t0]; cbn [or_null truthy default from_option id].
    + split; [done|]. split; [done|]. intros E'. apply Hempty in E'.
      by rewrite E' in E.
    + rewrite E in Hh. split; [done|]. split; [done|].
      intros E'. apply Hempty in E'. by rewrite E' in E.
  - destruct (trim h) as [|c l] eqn:El; cbn [or_null truthy default from_option id].
    + done.
    + split; [done|]. split; [done|]. intros E'. by apply Hempty in E'.
Qed.

(** ** Glyph strings *)

Lemma halves_add j k : (halves j + halves k)%Qc = halves (j + k).
Proof.
  apply Qc_is_canon. unfold halves. simpl.
  rewrite !Qred_correct. unfold Qeq. simpl. lia.
Qed.

Lemma star_halves_app a b : star_halves (a ++ b) = (star_halves a + star_halves b)%nat.
Proof. induction a as [|c a IH]; simpl; [done|]. rewrite IH. lia. Qed.

Lemma star_halves_repeat n : star_halves (repeat 0x2605 n) = (2 * n)%nat.
Proof. induction n as [|n IH]; simpl; [done|]. rewrite IH. lia. Qed.

(** The number [starsToNumber] stands for, null read as 0. *)
Lemma starsToNumber_value s :
  default 0%Qc (starsToNumber (Some s)) = halves (star_halves s).
Proof.
  rewrite starsToNumber_Some. case_decide as E; [|done].
  rewrite E. symmetry. apply halves_zero.
Qed.

(** n full stars, followed or not by a half star, rate n or n + 0.5 (at
    least one glyph being there). *)
Theorem starsToNumber_full_and_half (n : nat) (h : bool) :
  (0 < n)%nat \/ h = true ->
  starsToNumber (Some (repeat 0x2605 n ++ (if h then [0xBD] else [])))
  = Some (Q2Qc (inject_Z (Z.of_nat n)) + (if h then half else 0))%Qc.
Proof.
  intros H. rewrite starsToNumber_Some, star_halves_app, star_halves_repeat.
  rewrite <- halves_double.
  destruct h; cbn [star_halves foldr unit_halves].
  - rewrite decide_False by (simpl; lia). f_equal.
    by rewrite halves_plus_half.
  - rewrite decide_False by (simpl; lia). f_equal.
    rewrite Nat.add_0_r. apply Qc_is_canon. simpl. rewrite !Qred_correct.
    unfold Qeq. simpl. lia.
Qed.

Lemma starsToNumber_full_and_half_witness :
  starsToNumber (Some (repeat 0x2605 4 ++ [0xBD]))
  = Some (Q2Qc (inject_Z (Z.of_nat 4)) + half)%Qc.
Proof.
  apply (starsToNumber_full_and_half 4 true). by right.
Defined.

(** The rating of two glyph strings put together is the sum of their
    ratings, null counting as 0. *)
Theorem starsToNumber_concat (a b : jsstring) :
  default 0%Qc (starsToNumber (Some (a ++ b)))
  = (default 0%Qc (starsToNumber (Some a)) + default 0%Qc (starsToNumber (Some b)))%Qc.
Proof. by rewrite !starsToNumber_value, star_halves_app, halves_add. Qed.

Lemma star_halves_cons c s :
  star_halves (c :: s) = (unit_halves c + star_halves s)%nat.
Proof. done. Qed.

Lemma unit_halves_other c : is_glyph c = false -> unit_halves c = 0%nat.
Proof.
  unfold is_glyph, unit_halves. intros H. apply orb_false_elim in H as [-> ->]. done.
Qed.

Lemma star_halves_filter s : star_halves (List.filter is_glyph s) = star_halves s.
Proof.
  induction s as [|c s IH]; [done|]. cbn [List.filter].
  destruct (is_glyph c) eqn:E; rewrite !star_halves_cons, IH; [done|].
  by rewrite unit_halves_other.
Qed.

(** Only the two glyphs count: dropping every other code unit from the
    string leaves the rating as it is. *)
Theorem starsToNumber_ignores_other_characters (s : jsstring) :
  starsToNumber (Some s) = starsToNumber (Some (List.filter is_glyph s)).
Proof. by rewrite !starsToNumber_Some, star_halves_filter. Qed.

(** ** The payload, key by key *)

Section PayloadKeys.
Context (title : jsstring) (director watchedDate : option jsstring)
  (rating : option Qc) (posterUrl : option jsstring)
  (goals status mediaType format letterboxdUrl : jsstring).

#[local] Abbreviation props :=
  (movie_props title director watchedDate rating posterUrl
               goals status mediaType format letterboxdUrl).

Lemma movie_props_Goals : props !! "Goals" = Some (PRichText [goals]).
Proof. by props_lookup. Qed.

Lemma movie_props_Status : props !! "Status" = Some (PSelect status).
Proof. by props_lookup. Qed.

Lemma movie_props_media_type : props !! "media type" = Some (PSelect mediaType).
Proof. by props_lookup. Qed.

Lemma movie_props_Format : props !! "Format" = Some (PSelect format).
Proof. by props_lookup. Qed.

Lemma movie_props_other k : k ∉ MOVIE_KEYS -> props !! k = None.
Proof.
  intros Hk. unfold movie_props, remove_undefined. cbv zeta.
  rewrite map_lookup_filter. unfold list_to_map. cbn [foldr fst snd].
  unfold MOVIE_KEYS in Hk.
  rewrite !not_elem_of_cons in Hk.
  destruct Hk as (? & ? & ? & ? & ? & ? & ? & ? & ? & ? & _).
  by rewrite !lookup_insert_ne, lookup_empty by done.
Qed.

End PayloadKeys.

(** The keys of the payload: the seven that are always sent, and the date,
    the rating and the image exactly when they have a value; no other key. *)
Theorem create_payload_keys (title : jsstring) (director watchedDate : option jsstring)
    (rating : option Qc) (posterUrl : option jsstring)
    (goals status mediaType format letterboxdUrl : jsstring) (k : string) :
  is_Some (movie_props title director watchedDate rating posterUrl
             goals status mediaType format letterboxdUrl !! k) <->
  k ∈ ["Name"; "Author"; "Goals"; "Status"; "media type"; "Format"; "Letterboxd URL"]
  \/ (k = "Date Read/Watched" /\ or_null watchedDate <> None)
  \/ (k = "My Rating" /\ rating <> None)
  \/ (k = "Image" /\ or_null posterUrl <> None).
Proof.
  destruct (decide (k ∈ MOVIE_KEYS)) as [Hk|Hk].
  - unfold MOVIE_KEYS in Hk. rewrite !elem_of_cons in Hk.
    destruct Hk as [->|[->|[->|[->|[->|[->|[->|[->|[->|[->|Hk]]]]]]]]]].
    + rewrite movie_props_Name. split; [intros _; left; in_list|by eexists].
    + rewrite movie_props_Author. split; [intros _; left; in_list|by eexists].
    + rewrite movie_props_Date. split.
      * intros [v Hv]. right; left. split; [done|].
        by destruct (or_null watchedDate).
      * intros [H|[[_ H]|[[? _]|[? _]]]]; try done; [not_in_list H|].
        destruct (or_null watchedDate); [by eexists|done].
    + rewrite movie_props_Rating. split.
      * intros [v Hv]. right; right; left. split; [done|]. by destruct rating.
      * intros [H|[[? _]|[[_ H]|[? _]]]]; try done; [not_in_list H|].
        destruct rating; [by eexists|done].
    + rewrite movie_props_Goals. split; [intros _; left; in_list|by eexists].
    + rewrite movie_props_Status. split; [intros _; left; in_list|by eexists].
    + rewrite movie_props_media_type. split; [intros _; left; in_list|by eexists].
    + rewrite movie_props_Format. split; [intros _; left; in_list|by eexists].
    + rewrite movie_props_Url. split; [intros _; left; in_list|by eexists].
    + rewrite movie_props_Image. split.
      * intros [v Hv]. right; right; right. split; [done|].
        by destruct (or_null posterUrl).
      * intros [H|[[? _]|[[? _]|[_ H]]]]; try done; [not_in_list H|].
        destruct (or_null posterUrl); [by eexists|done].
    + by apply elem_of_nil in Hk.
  - rewrite movie_props_other by done. split; [by intros [? ?]|].
    unfold MOVIE_KEYS in Hk. rewrite !not_elem_of_cons in Hk.
    destruct Hk as (? & ? & ? & ? & ? & ? & ? & ? & ? & ? & _).
    intros [Hin|[[-> _]|[[-> _]|[-> _]]]]; [not_in_list Hin|done..].
Qed.

(** ** Every step of the loop body *)

Ltac process_item_cases env it w :=
  rewrite (process_item_unfold env it w);
  destruct (truthy (link_of it)) eqn:Hlink;
  [destruct (notion_query_rejects env (link_of it)) as [qe|] eqn:Hq;
   [|destruct (head (List.filter (has_url (link_of it)) (pages w))) as [found|] eqn:Hfound;
     [|rewrite enrich_unfold;
       destruct (or_null (TMDB_KEY env)) as [key|] eqn:Hkey;
       [destruct (tmdb_search_response env _ _) as [res|se] eqn:Hres;
        [destruct (ok res) eqn:Hok;
         [destruct (body res) as [json|be] eqn:Hbody;
          [destruct (results json ≫= head) as [hit|] eqn:Hhit;
           [destruct (truthy_id (hit_id hit)) as [movieId|] eqn:Hid;
            [rewrite tmdbGetDirector_unfold;
             destruct (tmdb_credits_response env movieId) as [cres|ce] eqn:Hcres;
             [destruct (ok cres) eqn:Hcok;
              [destruct (body cres) as [cjson|cbe] eqn:Hcbody|]|]|]|]|]|]|]|]]]|];
  try match goal with
      | |- context [notion_create_rejects env ?p] =>
          destruct (notion_create_rejects env p) as [ne|] eqn:Hcreate
      end.

Lemma item_props_movie_page it d p :
  truthy (link_of it) = true -> movie_page (item_props it d p).
Proof.
  intros H. unfold movie_page, item_props.
  rewrite movie_props_Goals, movie_props_Status, movie_props_media_type,
    movie_props_Format, movie_props_Name, movie_props_Author, movie_props_Url.
  repeat split; try by eexists.
  exists (link_of it). split; [|done]. by destruct (link_of it).
Qed.

Lemma process_item_step env it w :
  exists new added rej,
    trace (snd (process_item env it w)) = trace w ++ new
    /\ pages (snd (process_item env it w)) = pages w ++ added
    /\ creates new = added ++ rej
    /\ queries new = (if truthy (link_of it) then [link_of it] else [])
    /\ sleeps new = repeat 350 (length added)
    /\ (or_null (TMDB_KEY env) = None -> tmdb_calls new = [])
    /\ Forall (fun p => notion_create_rejects env p = None) added
    /\ Forall movie_page (creates new)
    /\ (rej = [] \/
        exists p e, rej = [p] /\ notion_create_rejects env p = Some e
                    /\ fst (process_item env it w) = Rejected e).
Proof.
  process_item_cases env it w.
  all: unfold emit; cbn [fst snd pages trace]; do 3 eexists.
  all: split; [first [rewrite <- ?app_assoc; reflexivity | symmetry; apply app_nil_r]|].
  all: split; [first [reflexivity | symmetry; apply app_nil_r]|].
  all: split; [reflexivity|].
  all: split; [reflexivity|].
  all: split; [reflexivity|].
  all: split; [first [reflexivity | congruence]|].
  all: split; [repeat constructor; done|].
  all: split; [repeat constructor; by apply item_props_movie_page|].
  all: first [by left | right; do 2 eexists; split; [reflexivity|done]].
Qed.

Lemma queries_app t1 t2 : queries (t1 ++ t2) = queries t1 ++ queries t2.
Proof. apply omap_app. Qed.

Lemma sleeps_app t1 t2 : sleeps (t1 ++ t2) = sleeps t1 ++ sleeps t2.
Proof. apply omap_app. Qed.

Lemma tmdb_calls_app t1 t2 : tmdb_calls (t1 ++ t2) = tmdb_calls t1 ++ tmdb_calls t2.
Proof. apply List.filter_app. Qed.

(** ** Every step of the loop *)

Lemma for_of_steps env items w :
  exists new added rej,
    trace (snd (for_of items (process_item env) w)) = trace w ++ new
    /\ pages (snd (for_of items (process_item env) w)) = pages w ++ added
    /\ creates new = added ++ rej
    /\ (fst (for_of items (process_item env) w) = Fulfilled tt ->
        queries new = List.filter truthy (map link_of items))
    /\ sleeps new = repeat 350 (length added)
    /\ (or_null (TMDB_KEY env) = None -> tmdb_calls new = [])
    /\ Forall (fun p => notion_create_rejects env p = None) added
    /\ Forall movie_page (creates new)
    /\ (rej = [] \/
        exists p e, rej = [p] /\ notion_create_rejects env p = Some e
                    /\ fst (for_of items (process_item env) w) = Rejected e).
Proof.
  revert w. induction items as [|it items IH]; intros w.
  - exists [], [], []. cbn [for_of ret fst snd]. rewrite !app_nil_r.
    repeat split; try done. by left.
  - rewrite for_of_cons.
    destruct (process_item_step env it w)
      as (n1 & a1 & r1 & Ht1 & Hp1 & Hc1 & Hq1 & Hs1 & Hk1 & Ha1 & Hm1 & Hr1).
    destruct (process_item env it w) as [[[]|e] w1]; cbn [fst snd] in *.
    + destruct (IH w1)
        as (n2 & a2 & r2 & Ht2 & Hp2 & Hc2 & Hq2 & Hs2 & Hk2 & Ha2 & Hm2 & Hr2).
      destruct Hr1 as [->|(p & e & _ & _ & ?)]; [|done].
      rewrite app_nil_r in Hc1.
      exists (n1 ++ n2), (a1 ++ a2), r2.
      rewrite Ht2, Ht1, Hp2, Hp1, <- !app_assoc, creates_app, sleeps_app,
        queries_app, tmdb_calls_app, Hc1, Hc2, Hs1, Hs2, Hq1, length_app, repeat_app.
      split; [done|]. split; [done|]. split; [done|].
      split.
      { intros Hok. rewrite (Hq2 Hok). cbn [map List.filter].
        by destruct (truthy (link_of it)). }
      split; [done|].
      split; [intros Hk; by rewrite Hk1, Hk2|].
      split; [by apply Forall_app|].
      split; [|done].
      rewrite <- Hc1, <- Hc2. by apply Forall_app.
    + exists n1, a1, r1. repeat split; try done.
Qed.

Lemma run_steps env w :
  exists new added rej,
    trace (snd (run env w)) = trace w ++ new
    /\ pages (snd (run env w)) = pages w ++ added
    /\ creates new = added ++ rej
    /\ (forall feed, feed_loaded env feed -> fst (run env w) = 0 ->
        queries new = List.filter truthy (map link_of (feed_items feed)))
    /\ sleeps new = repeat 350 (length added)
    /\ (or_null (TMDB_KEY env) = None -> tmdb_calls new = [])
    /\ Forall (fun p => notion_create_rejects env p = None) added
    /\ Forall movie_page (creates new)
    /\ (rej = [] \/
        exists p e, rej = [p] /\ notion_create_rejects env p = Some e
                    /\ fst (run env w) = 1).
Proof.
  assert (forall e, exists (new : list event) (added rej : list page),
    trace (emit (EError e) (emit (EFetchRss (RSS_URL env)) w)) = trace w ++ new
    /\ pages (emit (EError e) (emit (EFetchRss (RSS_URL env)) w)) = pages w ++ added
    /\ creates new = added ++ rej
    /\ (forall feed, feed_loaded env feed -> 1 = 0 ->
        queries new = List.filter truthy (map link_of (feed_items feed)))
    /\ sleeps new = repeat 350 (length added)
    /\ (or_null (TMDB_KEY env) = None -> tmdb_calls new = [])
    /\ Forall (fun p => notion_create_rejects env p = None) added
    /\ Forall movie_page (creates new)
    /\ (rej = [] \/
        exists p e0, rej = [p] /\ notion_create_rejects env p = Some e0 /\ 1 = 1))
    as Hfail.
  { intros e. exists [EFetchRss (RSS_URL env); EError e], [], [].
    unfold emit. cbn [trace pages]. rewrite <- app_assoc, app_nil_r.
    repeat split; try done. by left. }
  unfold run. rewrite main_unfold.
  destruct (rss_response env) as [res|e] eqn:Hres; cbn [fst snd]; [|apply Hfail].
  destruct (ok res) eqn:Hok; cbn [fst snd]; [|apply Hfail].
  destruct (body res) as [xml|e] eqn:Hbody; cbn [fst snd]; [|apply Hfail].
  destruct (xml_parse env xml) as [feed|e] eqn:Hxml; cbn [fst snd]; [|apply Hfail].
  destruct (for_of_steps env (feed_items feed) (emit (EFetchRss (RSS_URL env)) w))
    as (n & a & r & Ht & Hp & Hc & Hq & Hs & Hk & Ha & Hm & Hr).
  destruct (for_of _ _ _) as [[[]|e] w1]; cbn [fst snd] in *.
  - exists ([EFetchRss (RSS_URL env)] ++ n ++ [ELog (lit "Sync complete.")]), a, r.
    unfold emit in *. cbn [trace pages] in *.
    rewrite Ht, Hp, <- !app_assoc, !creates_app, !sleeps_app, !queries_app,
      !tmdb_calls_app.
    cbn [creates queries sleeps tmdb_calls omap list_omap List.filter app].
    rewrite !app_nil_r.
    split; [done|]. split; [done|]. split; [done|].
    split.
    { intros feed' (res' & xml' & E1 & _ & E2 & E3) _.
      rewrite Hres in E1. injection E1 as <-. rewrite Hbody in E2.
      injection E2 as <-. rewrite Hxml in E3. injection E3 as <-. by apply Hq. }
    split; [done|]. split; [done|]. split; [done|]. split; [done|].
    destruct Hr as [->|(p & e & _ & _ & ?)]; [by left|done].
  - exists ([EFetchRss (RSS_URL env)] ++ n ++ [EError e]), a, r.
    unfold emit in *. cbn [trace pages] in *.
    rewrite Ht, Hp, <- !app_assoc, !creates_app, !sleeps_app, !queries_app,
      !tmdb_calls_app.
    cbn [creates queries sleeps tmdb_calls omap list_omap List.filter app].
    rewrite !app_nil_r.
    split; [done|]. split; [done|]. split; [done|]. split; [done|].
    split; [done|]. split; [done|]. split; [done|]. split; [done|].
    destruct Hr as [->|(p & e' & -> & ? & _)]; [by left|].
    right. by exists p, e'.
Qed.

(** ** What a run does to the database and to the trace *)

(** A run only appends to the database: the pages it leaves are the pages
    it found followed by the payloads of the create calls Notion accepted,
    in call order.  A create call Notion rejects is the last create call of
    the run, and the run then ends with exit code 1. *)
Theorem run_adds_accepted_creates (env : Env) (w : World) :
  exists added rej : list page,
    pages (snd (run env w)) = pages w ++ added
    /\ creates (trace (snd (run env w))) = creates (trace w) ++ added ++ rej
    /\ Forall (fun p => notion_create_rejects env p = None) added
    /\ (rej = [] \/
        exists p e, rej = [p] /\ notion_create_rejects env p = Some e
                    /\ fst (run env w) = 1).
Proof.
  destruct (run_steps env w) as (n & a & r & Ht & Hp & Hc & _ & _ & _ & Ha & _ & Hr).
  exists a, r. by rewrite Ht, Hp, creates_app, Hc.
Qed.

(** Every create call of a run carries the four constant fields, a name,
    an author and a link that is not empty. *)
Theorem run_creates_movie_pages (env : Env) (w : World) :
  exists created : list page,
    creates (trace (snd (run env w))) = creates (trace w) ++ created
    /\ Forall movie_page created.
Proof.
  destruct (run_steps env w) as (n & a & r & Ht & _ & _ & _ & _ & _ & _ & Hm & _).
  exists (creates n). by rewrite Ht, creates_app.
Qed.

(** A run pauses 350 ms once for every page it adds, and never otherwise. *)
Theorem run_pauses_once_per_page (env : Env) (w : World) :
  exists added : list page,
    pages (snd (run env w)) = pages w ++ added
    /\ sleeps (trace (snd (run env w))) = sleeps (trace w) ++ repeat 350 (length added).
Proof.
  destruct (run_steps env w) as (n & a & r & Ht & Hp & _ & _ & Hs & _).
  exists a. by rewrite Ht, Hp, sleeps_app, Hs.
Qed.

(** Without a TMDB key (unset or empty) a run makes no TMDB call, whatever
    the feed holds. *)
Theorem run_without_key_never_calls_tmdb (env : Env) (w : World) :
  or_null (TMDB_KEY env) = None ->
  tmdb_calls (trace (snd (run env w))) = tmdb_calls (trace w).
Proof.
  intros Hkey.
  destruct (run_steps env w) as (n & a & r & Ht & _ & _ & _ & _ & Hk & _).
  by rewrite Ht, tmdb_calls_app, (Hk Hkey), app_nil_r.
Qed.

Lemma run_without_key_never_calls_tmdb_witness :
  tmdb_calls (trace (snd (run (sample_env (Some []) one_hit sample_credits) empty_world)))
  = tmdb_calls (trace empty_world).
Proof.
  apply (run_without_key_never_calls_tmdb
           (sample_env (Some []) one_hit sample_credits) empty_world).
  reflexivity.
Defined.

(** A run that ends with exit code 0 has asked the database once about
    every item that has a link, in feed order, and about nothing else. *)
Theorem run_queries_in_feed_order (env : Env) (w : World) (feed : option Feed) :
  feed_loaded env feed -> fst (run env w) = 0 ->
  queries (trace (snd (run env w)))
  = queries (trace w) ++ List.filter truthy (map link_of (feed_items feed)).
Proof.
  intros Hfeed Hok.
  destruct (run_steps env w) as (n & a & r & Ht & _ & _ & Hq & _).
  by rewrite Ht, queries_app, (Hq feed).
Qed.

Lemma sample_feed_loaded key search credits :
  feed_loaded (sample_env key search credits) (Some sample_feed).
Proof. by eexists _, _. Defined.

Lemma run_queries_in_feed_order_witness :
  queries (trace (snd (run (sample_env None unreachable unreachable) empty_world)))
  = queries (trace empty_world)
    ++ List.filter truthy (map link_of (feed_items (Some sample_feed))).
Proof.
  apply (run_queries_in_feed_order (sample_env None unreachable unreachable)
           empty_world (Some sample_feed));
    [apply sample_feed_loaded | reflexivity].
Defined.

(** ** A feed that cannot be read, a feed without links *)

(** When the feed cannot be read (the fetch is rejected, the status is not
    ok, the body cannot be read or is no XML), the run ends with exit code
    1 after the fetch alone: no query, no create call, the pages untouched.
    A status that is not ok is reported as [FetchFailed] with the status
    and the URL. *)
Theorem run_feed_failure (env : Env) (w : World) (e : error) :
  feed_fails env e ->
  run env w =
  (1, {| pages := pages w;
         trace := trace w ++ [EFetchRss (RSS_URL env); EError e] |}).
Proof.
  intros H. unfold run. rewrite main_unfold. unfold emit. cbn [pages trace].
  destruct H as [H|[(res & H & Hok & ->)|[(res & H & Hok & Hb)|(res & xml & H & Hok & Hb & Hx)]]];
    rewrite H, ?Hok, ?Hb, ?Hx; cbn [pages trace]; by rewrite <- app_assoc.
Qed.

Lemma run_feed_failure_witness :
  run (feed_env unavailable (fun _ => Fulfilled None)) synced_world =
  (1, {| pages := pages synced_world;
         trace := trace synced_world
                  ++ [EFetchRss (RSS_URL (feed_env unavailable (fun _ => Fulfilled None)));
                      EError (FetchFailed 503
                                (RSS_URL (feed_env unavailable (fun _ => Fulfilled None))))] |}).
Proof.
  apply (run_feed_failure (feed_env unavailable (fun _ => Fulfilled None)) synced_world).
  right; left. by eexists.
Defined.

Lemma for_of_no_links env items w :
  Forall (fun it => truthy (link_of it) = false) items ->
  for_of items (process_item env) w = (Fulfilled tt, w).
Proof.
  induction 1 as [|it items Hit _ IH]; [done|].
  by rewrite for_of_cons, process_item_unfold, Hit.
Qed.

(** A feed that was read and has no item with a link (an empty feed or a
    feed without channel among them) ends the run with exit code 0 after
    the fetch and the closing log line alone. *)
Theorem run_feed_without_links (env : Env) (w : World) (feed : option Feed) :
  feed_loaded env feed ->
  Forall (fun it => truthy (link_of it) = false) (feed_items feed) ->
  run env w =
  (0, {| pages := pages w;
         trace := trace w ++ [EFetchRss (RSS_URL env); ELog (lit "Sync complete.")] |}).
Proof.
  intros (res & xml & Hres & Hok & Hb & Hx) Hno.
  unfold run. rewrite main_unfold, Hres, Hok, Hb, Hx, for_of_no_links by done.
  unfold emit. cbn [pages trace]. by rewrite <- app_assoc.
Qed.

Lemma run_feed_without_links_witness :
  run (feed_env (Fulfilled {| ok := true; status := 200; body := Fulfilled (lit "<rss/>") |})
                (fun _ => Fulfilled (Some {| rss := Some {| channel := Some [] |} |})))
      synced_world =
  (0, {| pages := pages synced_world;
         trace := trace synced_world
                  ++ [EFetchRss (lit "https://letterboxd.com/someone/rss/");
                      ELog (lit "Sync complete.")] |}).
Proof.
  apply (run_feed_without_links
           (feed_env (Fulfilled {| ok := true; status := 200;
                                   body := Fulfilled (lit "<rss/>") |})
                     (fun _ => Fulfilled (Some {| rss := Some {| channel := Some [] |} |})))
           synced_world (Some {| rss := Some {| channel := Some [] |} |})).
  - by eexists _, _.
  - apply Forall_nil_2.
Defined.

(** ** Running the sync again *)

Lemma head_filter_Some u (found : page) ps :
  head (List.filter (has_url u) ps) = Some found ->
  found ∈ ps /\ has_url u found = true.
Proof.
  intros H.
  assert (In found (List.filter (has_url u) ps)) as Hin.
  { destruct (List.filter (has_url u) ps); [done|]. injection H as ->. by left. }
  apply filter_In in Hin as [Hin ?]. split; [by apply list_elem_of_In|done].
Qed.

(** After a loop body that returned, the item's link is in the database. *)
Lemma process_item_link_present env it w :
  fst (process_item env it w) = Fulfilled tt ->
  truthy (link_of it) = true ->
  exists p, p ∈ pages (snd (process_item env it w)) /\ has_url (link_of it) p = true.
Proof.
  intros Hok Ht. revert Hok. process_item_cases env it w; try done.
  all: cbn [fst snd emit pages]; intros _.
  all: try (eexists; split; [apply elem_of_app; right; apply list_elem_of_here|];
            rewrite has_url_item_props; by apply bool_decide_eq_true_2).
  apply head_filter_Some in Hfound as [? ?]. by eexists.
Qed.

(** A loop body that finds the item's link in the database, or no link in
    the item, writes nothing. *)
Lemma process_item_present env it w :
  (truthy (link_of it) = true ->
   exists p, p ∈ pages w /\ has_url (link_of it) p = true) ->
  pages (snd (process_item env it w)) = pages w
  /\ creates (trace (snd (process_item env it w))) = creates (trace w).
Proof.
  intros H. rewrite process_item_unfold.
  destruct (truthy (link_of it)); [|done].
  destruct (H eq_refl) as (p & Hin & Hp).
  pose proof (head_filter_found _ _ _ Hin Hp) as Hf.
  destruct (notion_query_rejects env (link_of it)).
  - cbn [snd emit trace pages]. by rewrite creates_app, app_nil_r.
  - destruct (head _); [|done].
    cbn [snd emit trace pages]. by rewrite creates_app, app_nil_r.
Qed.

Lemma for_of_links_present env items w :
  fst (for_of items (process_item env) w) = Fulfilled tt ->
  Forall (fun it => truthy (link_of it) = true ->
                    exists p, p ∈ pages (snd (for_of items (process_item env) w))
                              /\ has_url (link_of it) p = true) items.
Proof.
  revert w. induction items as [|it items IH]; intros w Hok; [done|].
  rewrite for_of_cons in Hok |- *.
  pose proof (process_item_link_present env it w) as Hit.
  destruct (process_item env it w) as [[[]|e] w1]; [|done].
  cbn [fst snd] in Hit. constructor; [|by apply IH].
  intros Ht. destruct (Hit eq_refl Ht) as (p & Hin & Hp).
  destruct (for_of_steps env items w1) as (_ & a & _ & _ & Hpages & _).
  exists p. rewrite Hpages. split; [|done]. apply elem_of_app. by left.
Qed.

Lemma for_of_present env items w :
  Forall (fun it => truthy (link_of it) = true ->
                    exists p, p ∈ pages w /\ has_url (link_of it) p = true) items ->
  pages (snd (for_of items (process_item env) w)) = pages w
  /\ creates (trace (snd (for_of items (process_item env) w))) = creates (trace w).
Proof.
  revert w. induction items as [|it items IH]; intros w H; [done|].
  apply Forall_cons in H as [Hit H].
  rewrite for_of_cons.
  destruct (process_item_present env it w Hit) as [Hp Hc].
  destruct (process_item env it w) as [[[]|e] w1]; cbn [snd] in *; [|done].
  rewrite <- Hp, <- Hc. apply IH. by rewrite Hp.
Qed.

(** After a run that ended with exit code 0, a second run in the same
    environment adds no page and makes no create call. *)
Theorem run_twice_writes_nothing_new (env : Env) (w : World) :
  fst (run env w) = 0 ->
  pages (snd (run env (snd (run env w)))) = pages (snd (run env w))
  /\ creates (trace (snd (run env (snd (run env w)))))
     = creates (trace (snd (run env w))).
Proof.
  intros Hok.
  assert (exists feed w1,
            feed_loaded env feed
            /\ fst (for_of (feed_items feed) (process_item env)
                      (emit (EFetchRss (RSS_URL env)) w)) = Fulfilled tt
            /\ w1 = snd (for_of (feed_items feed) (process_item env)
                           (emit (EFetchRss (RSS_URL env)) w))
            /\ snd (run env w) = emit (ELog (lit "Sync complete.")) w1)
    as (feed & w1 & (res & xml & Hres & Hrok & Hb & Hx) & Hfor & Ew1 & Erun).
  { revert Hok. unfold run. rewrite main_unfold.
    destruct (rss_response env) as [res|e] eqn:Hres; [|done].
    destruct (ok res) eqn:Hrok; [|done].
    destruct (body res) as [xml|e] eqn:Hb; [|done].
    destruct (xml_parse env xml) as [feed|e] eqn:Hx; [|done].
    destruct (for_of _ _ _) as [[[]|e] w1] eqn:Hfor; [|done].
    intros _. exists feed, w1. split; [by exists res, xml|]. by rewrite Hfor. }
  pose proof (for_of_links_present env _ _ Hfor) as Hall.
  rewrite <- Ew1 in Hall. rewrite Erun.
  set (w2 := emit (ELog (lit "Sync complete.")) w1).
  assert (pages (snd (for_of (feed_items feed) (process_item env)
                        (emit (EFetchRss (RSS_URL env)) w2))) = pages w2
          /\ creates (trace (snd (for_of (feed_items feed) (process_item env)
                                    (emit (EFetchRss (RSS_URL env)) w2))))
             = creates (trace w2)) as [Hp Hc].
  { destruct (for_of_present env (feed_items feed) (emit (EFetchRss (RSS_URL env)) w2) Hall)
      as [Hp Hc].
    split; [done|]. rewrite Hc. cbn [emit trace]. by rewrite creates_app, app_nil_r. }
  unfold run. rewrite main_unfold, Hres, Hrok, Hb, Hx.
  destruct (for_of (feed_items feed) (process_item env)
              (emit (EFetchRss (RSS_URL env)) w2)) as [[[]|e] w3];
    cbn [snd emit pages trace] in *; by rewrite creates_app, Hp, Hc, app_nil_r.
Qed.

Lemma run_twice_writes_nothing_new_witness :
  pages (snd (run (sample_env None unreachable unreachable)
                  (snd (run (sample_env None unreachable unreachable) empty_world))))
  = pages (snd (run (sample_env None unreachable unreachable) empty_world))
  /\ creates (trace (snd (run (sample_env None unreachable unreachable)
                            (snd (run (sample_env None unreachable unreachable)
                                      empty_world)))))
     = creates (trace (snd (run (sample_env None unreachable unreachable) empty_world))).
Proof.
  apply (run_twice_writes_nothing_new (sample_env None unreachable unreachable) empty_world).
  reflexivity.
Defined.

(** ** Enrichment that works, enrichment without a match *)

Lemma find_first {A} (f : A -> bool) l1 c l2 :
  Forall (fun x => f x = false) l1 -> f c = true ->
  List.find f (l1 ++ c :: l2) = Some c.
Proof.
  induction 1 as [|x l1 Hx _ IH]; intros Hc; cbn [app List.find].
  - by rewrite Hc.
  - rewrite Hx. by apply IH.
Qed.

Lemma find_none {A} (f : A -> bool) l :
  Forall (fun x => f x = false) l -> List.find f l = None.
Proof. induction 1 as [|x l Hx _ IH]; [done|]. cbn [List.find]. by rewrite Hx. Qed.

(** On an ok credits answer the director is the name of the first crew
    member whose job is "Director" (null when that name is missing or
    empty, later directors notwithstanding), and null when no member has
    that job. *)
Theorem tmdbGetDirector_first_director (env : Env) (movieId : N) (w : World)
    (res : Response CreditsJson) (json : CreditsJson) :
  tmdb_credits_response env movieId = Fulfilled res ->
  ok res = true -> body res = Fulfilled json ->
  (forall l1 c l2,
     default [] (crew json) = l1 ++ c :: l2 ->
     Forall (fun x => is_director x = false) l1 -> is_director c = true ->
     fst (tmdbGetDirector env movieId w) = Fulfilled (or_null (name c)))
  /\ (Forall (fun x => is_director x = false) (default [] (crew json)) ->
      fst (tmdbGetDirector env movieId w) = Fulfilled None).
Proof.
  intros Hres Hok Hbody.
  rewrite tmdbGetDirector_unfold, Hres, Hok, Hbody. cbn [fst]. split.
  - intros l1 c l2 -> Hl1 Hc. by rewrite find_first.
  - intros Hall. by rewrite find_none.
Qed.

Lemma tmdbGetDirector_first_director_witness :
  fst (tmdbGetDirector (sample_env (Some (lit "key")) one_hit sample_credits) 235 empty_world)
  = Fulfilled (or_null (Some (lit "Rob Reiner"))).
Proof.
  apply (proj1 (tmdbGetDirector_first_director
                  (sample_env (Some (lit "key")) one_hit sample_credits) 235 empty_world
                  _ _ eq_refl eq_refl eq_refl)
           [{| job := Some (lit "Producer"); name := Some (lit "Andrew Scheinman") |}]
           {| job := Some (lit "Director"); name := Some (lit "Rob Reiner") |}
           [{| job := Some (lit "Director"); name := Some (lit "Someone Else") |}]).
  - reflexivity.
  - by repeat constructor.
  - reflexivity.
Defined.

(** With a TMDB key, a search hit with an id and an ok credits answer, a
    new item is written with the credited director as "Author" and, when
    the hit has a poster path, the TMDB image URL made of the fixed prefix
    and that path as "Image". *)
Theorem enrichment_success (env : Env) (it : FeedItem) (w : World)
    (res : Response SearchJson) (json : SearchJson) (hit : TmdbHit) (movieId : N)
    (cres : Response CreditsJson) (cjson : CreditsJson) :
  truthy (link_of it) = true ->
  or_null (TMDB_KEY env) <> None ->
  notion_query_rejects env (link_of it) = None ->
  url_free (link_of it) (pages w) ->
  search_response env it = Fulfilled res -> ok res = true ->
  body res = Fulfilled json -> results json ≫= head = Some hit ->
  truthy_id (hit_id hit) = Some movieId ->
  tmdb_credits_response env movieId = Fulfilled cres -> ok cres = true ->
  body cres = Fulfilled cjson ->
  exists director rest,
    director = or_null (List.find is_director (default [] (crew cjson)) ≫= name)
    /\ trace (snd (process_item env it w)) =
       trace w ++ ENotionQuery (link_of it) :: search_event it
         :: ETmdbCredits movieId :: ELog (item_log it)
         :: ENotionCreate (item_props it director (hit_poster env it hit)) :: rest
    /\ (rest = [] \/ rest = [ESleep 350])
    /\ item_props it director (hit_poster env it hit) !! "Author"
       = Some (PRichText (option_list director))
    /\ item_props it director (hit_poster env it hit) !! "Image"
       = poster_files <$> hit_poster env it hit
    /\ (forall path, or_null (poster_path hit) = Some path ->
        hit_poster env it hit = Some (lit "https://image.tmdb.org/t/p/w500" ++ path)).
Proof.
  intros Hlink Hkey Hq Hfree Hres Hok Hbody Hhit Hid Hcres Hcok Hcbody.
  destruct (or_null (TMDB_KEY env)) as [key|] eqn:Ekey; [clear Hkey|done].
  exists (or_null (List.find is_director (default [] (crew cjson)) ≫= name)).
  rewrite process_item_unfold, Hlink, Hq, filter_url_free by done.
  cbn [head]. rewrite enrich_unfold, Ekey.
  fold (search_response env it). fold (search_event it).
  rewrite Hres, Hok, Hbody, Hhit, Hid, tmdbGetDirector_unfold, Hcres, Hcok, Hcbody.
  fold (hit_poster env it hit).
  set (director := or_null (List.find is_director (default [] (crew cjson)) ≫= name)).
  assert (item_props it director (hit_poster env it hit) !! "Author"
          = Some (PRichText (option_list director))) as HA.
  { unfold item_props. rewrite movie_props_Author. subst director.
    by rewrite or_null_idemp. }
  assert (item_props it director (hit_poster env it hit) !! "Image"
          = poster_files <$> hit_poster env it hit) as HI.
  { unfold item_props. by rewrite movie_props_Image, hit_poster_or_null. }
  assert (forall path, or_null (poster_path hit) = Some path ->
            hit_poster env it hit = Some (lit "https://image.tmdb.org/t/p/w500" ++ path))
    as HP.
  { intros path E. unfold hit_poster, tmdbPosterUrl. by rewrite E. }
  destruct (notion_create_rejects env _).
  - exists []. cbn [snd emit trace]. rewrite <- !app_assoc.
    split; [reflexivity|]. split; [reflexivity|]. split; [by left|].
    by split; [exact HA|split; [exact HI|exact HP]].
  - exists [ESleep 350]. cbn [snd emit trace]. rewrite <- !app_assoc.
    split; [reflexivity|]. split; [reflexivity|]. split; [by right|].
    by split; [exact HA|split; [exact HI|exact HP]].
Qed.

Lemma enrichment_success_witness :
  exists director rest,
    director = or_null (List.find is_director
                          (default [] (crew {| crew := Some [
                             {| job := Some (lit "Producer");
                                name := Some (lit "Andrew Scheinman") |};
                             {| job := Some (lit "Director");
                                name := Some (lit "Rob Reiner") |};
                             {| job := Some (lit "Director");
                                name := Some (lit "Someone Else") |}] |})) ≫= name)
    /\ trace (snd (process_item keyed_env sample_item empty_world)) =
       trace empty_world ++ ENotionQuery (link_of sample_item) :: search_event sample_item
         :: ETmdbCredits 235 :: ELog (item_log sample_item)
         :: ENotionCreate
              (item_props sample_item director
                 (hit_poster keyed_env sample_item
                    {| hit_id := Some 235; poster_path := Some (lit "/sbm.jpg") |}))
         :: rest.
Proof.
  destruct (enrichment_success keyed_env sample_item empty_world
              _ _ _ _ _ _ eq_refl ltac:(discriminate) eq_refl (Forall_nil_2 _)
              eq_refl eq_refl eq_refl eq_refl eq_refl eq_refl eq_refl eq_refl)
    as (director & rest & Hd & Ht & _).
  exists director, rest. split; [exact Hd|exact Ht].
Defined.

(** With a TMDB key, an ok search answer without a first result, or whose
    first result has no id (or the id 0), leads to no credits call: the
    item is written with an empty "Author" and the RSS image, the poster
    path of such a result being ignored. *)
Theorem enrichment_no_match (env : Env) (it : FeedItem) (w : World)
    (res : Response SearchJson) (json : SearchJson) :
  truthy (link_of it) = true ->
  or_null (TMDB_KEY env) <> None ->
  notion_query_rejects env (link_of it) = None ->
  url_free (link_of it) (pages w) ->
  search_response env it = Fulfilled res -> ok res = true ->
  body res = Fulfilled json ->
  (results json ≫= head) ≫= (fun hit => truthy_id (hit_id hit)) = None ->
  exists rest,
    trace (snd (process_item env it w)) =
      trace w ++ ENotionQuery (link_of it) :: search_event it :: ELog (item_log it)
        :: ENotionCreate (item_props it None (rss_poster env it)) :: rest
    /\ (rest = [] \/ rest = [ESleep 350]).
Proof.
  intros Hlink Hkey Hq Hfree Hres Hok Hbody Hnone.
  destruct (or_null (TMDB_KEY env)) as [key|] eqn:Ekey; [clear Hkey|done].
  rewrite process_item_unfold, Hlink, Hq, filter_url_free by done.
  cbn [head]. rewrite enrich_unfold, Ekey.
  fold (search_response env it). fold (search_event it).
  rewrite Hres, Hok, Hbody.
  assert (forall (d : option jsstring * option jsstring) (w0 : World)
                 (k : TmdbHit -> N -> outcome (option jsstring * option jsstring) * World),
            match results json ≫= head with
            | None => (Fulfilled d, w0)
            | Some hit => match truthy_id (hit_id hit) with
                          | None => (Fulfilled d, w0)
                          | Some movieId => k hit movieId
                          end
            end = (Fulfilled d, w0)) as Hskip.
  { intros d w0 k. destruct (results json ≫= head) as [hit|]; [|done].
    cbn [mbind option_bind] in Hnone. by rewrite Hnone. }
  rewrite Hskip.
  destruct (notion_create_rejects env _).
  - exists []. cbn [snd emit trace]. rewrite <- !app_assoc. split; [done|by left].
  - exists [ESleep 350]. cbn [snd emit trace]. rewrite <- !app_assoc.
    split; [done|by right].
Qed.

Lemma enrichment_no_match_witness :
  exists rest,
    trace (snd (process_item (sample_env (Some (lit "key")) hit_without_id sample_credits)
                             sample_item empty_world)) =
      trace empty_world ++ ENotionQuery (link_of sample_item) :: search_event sample_item
        :: ELog (item_log sample_item)
        :: ENotionCreate
             (item_props sample_item None
                (rss_poster (sample_env (Some (lit "key")) hit_without_id sample_credits)
                            sample_item))
        :: rest
    /\ (rest = [] \/ rest = [ESleep 350]).
Proof.
  apply (enrichment_no_match (sample_env (Some (lit "key")) hit_without_id sample_credits)
           sample_item empty_world _ _
           eq_refl ltac:(discriminate) eq_refl (Forall_nil_2 _)
           eq_refl eq_refl eq_refl eq_refl).
Defined.

(** ** A rejected TMDB call *)

Lemma for_of_app {A} (pre l : list A) (body : A -> Async unit) w :
  for_of (pre ++ l) body w =
  match for_of pre body w with
  | (Fulfilled _, w1) => for_of l body w1
  | (Rejected e, w1) => (Rejected e, w1)
  end.
Proof.
  revert w. induction pre as [|x pre IH]; intros w; [done|].
  cbn [app]. rewrite !for_of_cons.
  destruct (body x w) as [[[]|e] w0]; [apply IH|done].
Qed.

(** The loop body on a new item whose TMDB call is rejected: it throws the
    rejection, having made no create call and changed no page. *)
Lemma process_item_enrichment_rejects env it w e :
  truthy (link_of it) = true ->
  or_null (TMDB_KEY env) <> None ->
  notion_query_rejects env (link_of it) = None ->
  url_free (link_of it) (pages w) ->
  enrichment_rejects env it e ->
  exists calls,
    process_item env it w =
      (Rejected e, {| pages := pages w; trace := trace w ++ calls |})
    /\ creates calls = [].
Proof.
  intros Hlink Hkey Hq Hfree Hrej.
  destruct (or_null (TMDB_KEY env)) as [key|] eqn:Ekey; [clear Hkey|done].
  rewrite process_item_unfold, Hlink, Hq, filter_url_free by done.
  cbn [head]. rewrite enrich_unfold, Ekey.
  fold (search_response env it). fold (search_event it).
  destruct Hrej as [H|[(res & H & Hok & Hb)
                      |(res & json & hit & movieId & H & Hok & Hb & Hhit & Hid & Hc)]].
  - rewrite H. exists [ENotionQuery (link_of it); search_event it].
    unfold emit. cbn [pages trace]. by rewrite <- app_assoc.
  - rewrite H, Hok, Hb. exists [ENotionQuery (link_of it); search_event it].
    unfold emit. cbn [pages trace]. by rewrite <- app_assoc.
  - rewrite H, Hok, Hb, Hhit, Hid, tmdbGetDirector_unfold.
    exists [ENotionQuery (link_of it); search_event it; ETmdbCredits movieId].
    destruct Hc as [Hc|(cres & Hc & Hcok & Hcb)].
    + rewrite Hc. unfold emit. cbn [pages trace]. by rewrite <- !app_assoc.
    + rewrite Hc, Hcok, Hcb. unfold emit. cbn [pages trace]. by rewrite <- !app_assoc.
Qed.

(** C3, where the code departs from it.  With a TMDB key set, when the
    items before it went through and an item new to the database has its
    search or its credits request rejected, or answered with a body that is
    no JSON, the script does not degrade: the rejection is thrown out of
    the loop, the run ends with exit code 1 and that error, the item is
    not written and no later item is looked at.  The pages and the create
    calls are those left by the items before. *)
Theorem enrichment_rejection_aborts (env : Env) (w w1 : World) (feed : option Feed)
    (pre post : list FeedItem) (it : FeedItem) (e : error) :
  feed_loaded env feed ->
  feed_items feed = pre ++ it :: post ->
  for_of pre (process_item env) (emit (EFetchRss (RSS_URL env)) w) = (Fulfilled tt, w1) ->
  truthy (link_of it) = true ->
  or_null (TMDB_KEY env) <> None ->
  notion_query_rejects env (link_of it) = None ->
  url_free (link_of it) (pages w1) ->
  enrichment_rejects env it e ->
  fst (run env w) = 1
  /\ pages (snd (run env w)) = pages w1
  /\ creates (trace (snd (run env w))) = creates (trace w1)
  /\ exists calls, trace (snd (run env w)) = trace w1 ++ calls ++ [EError e].
Proof.
  intros (res & xml & Hres & Hok & Hb & Hx) Hitems Hpre Hlink Hkey Hq Hfree Hrej.
  destruct (process_item_enrichment_rejects env it w1 e Hlink Hkey Hq Hfree Hrej)
    as (calls & Hit & Hcalls).
  unfold run. rewrite main_unfold, Hres, Hok, Hb, Hx, Hitems, for_of_app, Hpre.
  rewrite for_of_cons, Hit. unfold emit. cbn [fst snd pages trace].
  split; [done|]. split; [done|]. split.
  - rewrite <- app_assoc, !creates_app, Hcalls. cbn. by rewrite app_nil_r.
  - exists calls. by rewrite <- app_assoc.
Qed.

Lemma enrichment_rejection_aborts_witness :
  fst (run (sample_env (Some (lit "key")) unreachable unreachable) empty_world) = 1
  /\ pages (snd (run (sample_env (Some (lit "key")) unreachable unreachable) empty_world))
     = pages (emit (EFetchRss (lit "https://letterboxd.com/someone/rss/")) empty_world)
  /\ creates (trace (snd (run (sample_env (Some (lit "key")) unreachable unreachable)
                              empty_world)))
     = creates (trace (emit (EFetchRss (lit "https://letterboxd.com/someone/rss/"))
                            empty_world))
  /\ exists calls,
       trace (snd (run (sample_env (Some (lit "key")) unreachable unreachable) empty_world))
       = trace (emit (EFetchRss (lit "https://letterboxd.com/someone/rss/")) empty_world)
         ++ calls ++ [EError (Rejection (lit "fetch failed"))].
Proof.
  apply (enrichment_rejection_aborts
           (sample_env (Some (lit "key")) unreachable unreachable) empty_world
           (emit (EFetchRss (lit "https://letterboxd.com/someone/rss/")) empty_world)
           (Some sample_feed) [] [] sample_item (Rejection (lit "fetch failed"))).
  - apply sample_feed_loaded.
  - reflexivity.
  - reflexivity.
  - reflexivity.
  - discriminate.
  - reflexivity.
  - apply Forall_nil_2.
  - left. reflexivity.
Defined.
